(** * TravelAgent_LLM: the extraction, normalisation, budget, weather-gate
      and wizard core of [agents.py] and [main.py], embedded in Rocq.

    Python values are an inductive type, exceptions an explicit result
    type, [str] a list of code points.  Library calls whose outcome is
    fixed by their arguments ([re.search] with the two patterns of the
    source, [json.loads], [datetime.strptime] with ["%Y-%m-%d"], binary64
    multiplication) are modelled as functions; what depends on the world
    (the clock, the weather service, the generated text) is an argument. *)

From Stdlib Require Import ZArith NArith List Bool Lia String Ascii.
From Stdlib Require Import Floats.SpecFloat.
Import ListNotations.
Local Open Scope Z_scope.
Set Warnings "-register-all".
Set Warnings "-automation".


(* ================================================================== *)
(** ** Strings *)

(** A Python [str]: the sequence of its code points. *)
Definition pystr := list N.

(** Literals of the source that are plain ASCII are written as Rocq strings. *)
Definition u (s : string) : pystr := map N_of_ascii (list_ascii_of_string s).

Fixpoint pystr_eqb (a b : pystr) : bool :=
  match a, b with
  | [], [] => true
  | x :: a', y :: b' => N.eqb x y && pystr_eqb a' b'
  | _, _ => false
  end.

(** Test texts are written with ['] where the text has a double quote. *)
Definition uq (s : string) : pystr :=
  map (fun c => if (c =? 39)%N then 34%N else c) (u s).

(** The default ["—"] of the formatters is the single code point U+2014. *)
Definition em_dash : pystr := [8212%N].

Definition c_lbrace : N := 123.
Definition c_rbrace : N := 125.
Definition c_lbrack : N := 91.
Definition c_rbrack : N := 93.
Definition c_quote : N := 34.
Definition c_backslash : N := 92.
Definition c_minus : N := 45.

Definition is_digit (c : N) : bool := (48 <=? c)%N && (c <=? 57)%N.
Definition digit_val (c : N) : Z := Z.of_N c - 48.

(** Value of a run of decimal digits, most significant first. *)
Fixpoint digits_val (acc : Z) (ds : pystr) : Z :=
  match ds with
  | [] => acc
  | d :: ds' => digits_val (10 * acc + digit_val d) ds'
  end.

(* ================================================================== *)
(** ** Exceptions and results *)

Inductive exn : Type :=
  | JSONDecodeError
  | TypeError
  | AttributeError
  | KeyError
  | IndexError
  | ValueError
  | OverflowError
  | RequestException.

Inductive result (A : Type) : Type :=
  | Ret (a : A)
  | Raise (e : exn).
Arguments Ret {A} a.
Arguments Raise {A} e.

Definition bind {A B : Type} (r : result A) (k : A -> result B) : result B :=
  match r with
  | Ret a => k a
  | Raise e => Raise e
  end.

Notation "x <- c ;; k" := (bind c (fun x => k))
  (at level 61, c at next level, right associativity).

(** [try: c  except Exception: h] *)
Definition try_except {A : Type} (c : result A) (h : A) : A :=
  match c with
  | Ret a => a
  | Raise _ => h
  end.

(* ================================================================== *)
(** ** Python values *)

Inductive value : Type :=
  | VNone
  | VBool (b : bool)
  | VInt (z : Z)
  | VFloat (f : spec_float)
  | VStr (s : pystr)
  | VList (l : list value)
  | VDict (d : list (pystr * value)).

(** [bool(v)] *)
Definition truthy (v : value) : bool :=
  match v with
  | VNone => false
  | VBool b => b
  | VInt z => negb (z =? 0)
  | VFloat (S754_zero _) => false
  | VFloat _ => true
  | VStr s => match s with [] => false | _ => true end
  | VList l => match l with [] => false | _ => true end
  | VDict d => match d with [] => false | _ => true end
  end.

(** [a or b] *)
Definition py_or (a b : value) : value := if truthy a then a else b.

Definition is_str (v : value) : bool := match v with VStr _ => true | _ => false end.
Definition is_list (v : value) : bool := match v with VList _ => true | _ => false end.
Definition is_dict (v : value) : bool := match v with VDict _ => true | _ => false end.

(** Dictionaries keep insertion order; a key occurs once. *)
Fixpoint dict_lookup (d : list (pystr * value)) (k : pystr) : option value :=
  match d with
  | [] => None
  | (k', v) :: d' => if pystr_eqb k' k then Some v else dict_lookup d' k
  end.

(** [d[k] = v]: replaces in place, or appends. *)
Fixpoint dict_set (d : list (pystr * value)) (k : pystr) (v : value)
  : list (pystr * value) :=
  match d with
  | [] => [(k, v)]
  | (k', v') :: d' =>
      if pystr_eqb k' k then (k', v) :: d' else (k', v') :: dict_set d' k v
  end.

Definition dict_keys (d : list (pystr * value)) : list pystr := map fst d.

Definition has_key (v : value) (k : pystr) : bool :=
  match v with
  | VDict d => match dict_lookup d k with Some _ => true | None => false end
  | _ => false
  end.

(** [obj.get(k, default)]: only mappings have [get]. *)
Definition py_get (obj : value) (k : pystr) (default : value) : result value :=
  match obj with
  | VDict d => Ret (match dict_lookup d k with Some v => v | None => default end)
  | _ => Raise AttributeError
  end.

(** [obj[k]] with a string key. *)
Definition py_getitem (obj : value) (k : pystr) : result value :=
  match obj with
  | VDict d => match dict_lookup d k with Some v => Ret v | None => Raise KeyError end
  | _ => Raise TypeError
  end.

(** [obj[0]] *)
Definition py_getitem0 (obj : value) : result value :=
  match obj with
  | VList (x :: _) => Ret x
  | VList [] => Raise IndexError
  | VStr (c :: _) => Ret (VStr [c])
  | VStr [] => Raise IndexError
  | VDict _ => Raise KeyError
  | _ => Raise TypeError
  end.

(** What [for item in obj] visits: the elements of a list, the keys of a
    mapping, the characters of a string; other values are not iterable. *)
Definition py_iter (obj : value) : result (list value) :=
  match obj with
  | VList l => Ret l
  | VDict d => Ret (map (fun kv => VStr (fst kv)) d)
  | VStr s => Ret (map (fun c => VStr [c]) s)
  | _ => Raise TypeError
  end.

(* ================================================================== *)
(** ** Weather gate: [Tripcrew.should_show_weather] *)

Record date : Type := mkdate { year : Z; month : Z; day : Z }.

Definition is_leap (y : Z) : bool :=
  (y mod 4 =? 0) && (negb (y mod 100 =? 0) || (y mod 400 =? 0)).

Definition days_in_month (y m : Z) : Z :=
  if m =? 2 then (if is_leap y then 29 else 28)
  else if (m =? 4) || (m =? 6) || (m =? 9) || (m =? 11) then 30
  else 31.

Definition days_before_year (y : Z) : Z :=
  let p := y - 1 in p * 365 + p / 4 - p / 100 + p / 400.

Definition days_before_month (y m : Z) : Z :=
  nth (Z.to_nat m) [0; 0; 31; 59; 90; 120; 151; 181; 212; 243; 273; 304; 334] 0
  + (if (2 <? m) && is_leap y then 1 else 0).

(** [date.toordinal()] *)
Definition toordinal (d : date) : Z :=
  days_before_year (year d) + days_before_month (year d) (month d) + day d.

(** The month directive [%m]: [1[0-2]|0[1-9]|[1-9]], alternatives in order. *)
Definition match_month (s : pystr) : option (Z * pystr) :=
  match s with
  | 49%N :: c :: r =>
      if (48 <=? c)%N && (c <=? 50)%N then Some (10 + digit_val c, r)
      else Some (1, c :: r)
  | 48%N :: c :: r =>
      if (49 <=? c)%N && (c <=? 57)%N then Some (digit_val c, r) else None
  | c :: r =>
      if (49 <=? c)%N && (c <=? 57)%N then Some (digit_val c, r) else None
  | [] => None
  end.

(** The day directive [%d]: [3[0-1]|[1-2]\d|0[1-9]|[1-9]| [1-9]]. *)
Definition match_day (s : pystr) : option (Z * pystr) :=
  let one_to_nine c := (49 <=? c)%N && (c <=? 57)%N in
  let single := match s with
                | c :: r => if one_to_nine c then Some (digit_val c, r) else None
                | [] => None
                end in
  match s with
  | 51%N :: c :: r =>
      if (48 <=? c)%N && (c <=? 49)%N then Some (30 + digit_val c, r) else single
  | 49%N :: c :: r =>
      if is_digit c then Some (10 + digit_val c, r) else single
  | 50%N :: c :: r =>
      if is_digit c then Some (20 + digit_val c, r) else single
  | 48%N :: c :: r =>
      if one_to_nine c then Some (digit_val c, r) else None
  | 32%N :: c :: r =>
      if one_to_nine c then Some (digit_val c, r) else None
  | _ => single
  end.

(** [datetime.strptime(s, "%Y-%m-%d").date()]; [None] stands for the
    [ValueError] of a string that does not match, leaves characters over,
    or names no day of the calendar.  Digits are the ASCII digits. *)
Definition strptime_ymd (s : pystr) : option date :=
  match s with
  | y1 :: y2 :: y3 :: y4 :: 45%N :: r1 =>
      if is_digit y1 && is_digit y2 && is_digit y3 && is_digit y4 then
        match match_month r1 with
        | Some (m, 45%N :: r2) =>
            match match_day r2 with
            | Some (d, []) =>
                let y := digits_val 0 [y1; y2; y3; y4] in
                if (1 <=? y) && (d <=? days_in_month y m)
                then Some (mkdate y m d) else None
            | _ => None
            end
        | _ => None
        end
      else None
  | _ => None
  end.

(** The preferences [Tripcrew] reads, typed as the request model
    [Preferences] of [main-two.py] has them; [budget_range] is the mapping
    from category name to an optional [(min, max)] pair. *)
Record Inputs : Type := mkInputs {
  total_budget : option Z;
  budget_range : option (list (pystr * option (Z * Z)));
  start_date : option pystr;
  planning_style : option pystr
}.

Definition holiday_based : pystr := u "holiday_based".

(** [not s] for an optional string: absent or empty. *)
Definition str_missing (o : option pystr) : bool :=
  match o with
  | None => true
  | Some [] => true
  | Some _ => false
  end.

(** [should_show_weather]; [today] is [datetime.utcnow().date()]. *)
Definition should_show_weather (today : date) (inputs : Inputs) : bool :=
  if str_missing (start_date inputs) || str_missing (planning_style inputs)
  then false
  else
    match start_date inputs, planning_style inputs with
    | Some start_date_str, Some style =>
        match strptime_ymd start_date_str with
        | None => false
        | Some start =>
            let days_until_trip := toordinal start - toordinal today in
            if pystr_eqb style holiday_based
               && (0 <=? days_until_trip) && (days_until_trip <=? 3)
            then true else false
        end
    | _, _ => false
    end.

(* ================================================================== *)
(** ** Binary64 arithmetic of the budget split *)

(** The double nearest to [m * 10^e10] ([m >= 0], sign apart): how a decimal
    literal of the source or of a JSON text becomes a [float]. *)
Definition float_of_decimal (neg : bool) (m e10 : Z) : spec_float :=
  match m with
  | Z0 => S754_zero neg
  | Zpos p =>
      if 0 <=? e10
      then binary_normalize 53 1024 (cond_Zopp neg (m * 10 ^ e10)) 0 neg
      else SFdiv 53 1024 (S754_finite neg p 0)
                         (S754_finite false (Z.to_pos (10 ^ (- e10))) 0)
  | Zneg _ => S754_nan
  end.

(** [float(z)] of an [int]: correctly rounded, [OverflowError] beyond the
    range of a double. *)
Definition float_of_int (z : Z) : result spec_float :=
  match binary_normalize 53 1024 z 0 false with
  | S754_infinity _ => Raise OverflowError
  | f => Ret f
  end.

(** [int(f)]: truncation toward zero. *)
Definition int_of_float (f : spec_float) : result Z :=
  match f with
  | S754_zero _ => Ret 0
  | S754_finite s m e =>
      Ret (cond_Zopp s (if 0 <=? e then Z.shiftl (Zpos m) e
                        else Z.shiftr (Zpos m) (- e)))
  | S754_infinity _ => Raise OverflowError
  | S754_nan => Raise ValueError
  end.

(** [int(c * total)] with [c] a float and [total] an int. *)
Definition int_of_product (c : spec_float) (total : Z) : result Z :=
  t <- float_of_int total ;;
  int_of_float (SFmul 53 1024 c t).

Definition lit_0_25 : spec_float := float_of_decimal false 25 (-2).
Definition lit_0_35 : spec_float := float_of_decimal false 35 (-2).
Definition lit_0_45 : spec_float := float_of_decimal false 45 (-2).
Definition lit_0_15 : spec_float := float_of_decimal false 15 (-2).
Definition lit_0_05 : spec_float := float_of_decimal false 5 (-2).

(** Round to nearest, ties to even, of [m / 2^n] ([1 <= n]). *)
Definition rne (m n : Z) : Z :=
  let q := m / 2 ^ n in
  let r := m mod 2 ^ n in
  let h := 2 ^ (n - 1) in
  if r <? h then q else if (r =? h) && Z.even q then q else q + 1.

(* ================================================================== *)
(** ** Budget auto-split: [Tripcrew.__init__] *)

Definition ranges := list (pystr * option (Z * Z)).

(** [all(v is None for v in budget_range.values())] *)
Definition all_none (br : ranges) : bool :=
  forallb (fun kv => match snd kv with None => true | Some _ => false end) br.

(** [not budget_range or all(...)]: absent, empty, or every value null. *)
Definition ranges_unusable (br : option ranges) : bool :=
  match br with
  | None => true
  | Some [] => true
  | Some d => all_none d
  end.

(** Truth value of [inputs.get("total_budget")]. *)
Definition total_given (t : option Z) : bool :=
  match t with
  | Some z => negb (z =? 0)
  | None => false
  end.

Definition split_budget (total : Z) : result ranges :=
  t_lo <- int_of_product lit_0_25 total ;;
  t_hi <- int_of_product lit_0_35 total ;;
  a_lo <- int_of_product lit_0_35 total ;;
  a_hi <- int_of_product lit_0_45 total ;;
  f_lo <- int_of_product lit_0_15 total ;;
  f_hi <- int_of_product lit_0_25 total ;;
  e_lo <- int_of_product lit_0_05 total ;;
  e_hi <- int_of_product lit_0_15 total ;;
  Ret [ (u "transport", Some (t_lo, t_hi));
        (u "accommodation", Some (a_lo, a_hi));
        (u "food", Some (f_lo, f_hi));
        (u "entertainment", Some (e_lo, e_hi)) ].

Definition with_budget_range (inputs : Inputs) (br : option ranges) : Inputs :=
  mkInputs (total_budget inputs) br (start_date inputs) (planning_style inputs).

(** The constructor, as far as it touches [inputs]. *)
Definition Tripcrew_init (inputs : Inputs) : result Inputs :=
  if ranges_unusable (budget_range inputs) && total_given (total_budget inputs)
  then
    match total_budget inputs with
    | Some total =>
        split <- split_budget total ;;
        Ret (with_budget_range inputs (Some split))
    | None => Ret inputs
    end
  else Ret inputs.

(** The budget derivation of the specification: the ranges [Tripcrew]
    works with once it is constructed from a total and existing ranges. *)
Definition derive_budget (total : option Z) (existing : option ranges)
  : result (option ranges) :=
  i <- Tripcrew_init (mkInputs total existing None None) ;;
  Ret (budget_range i).

(* ================================================================== *)
(** ** The two patterns of the extractors *)

(** [\s] on [str]: the Unicode white space. *)
Definition is_space (c : N) : bool :=
  ((9 <=? c) && (c <=? 13) || (28 <=? c) && (c <=? 32)
   || (c =? 133) || (c =? 160) || (c =? 5760)
   || (8192 <=? c) && (c <=? 8202)
   || (c =? 8232) || (c =? 8233) || (c =? 8239) || (c =? 8287)
   || (c =? 12288))%N.

(** [\s*] in front of a character that is no white space takes all of it. *)
Fixpoint skip_spaces (s : pystr) : pystr :=
  match s with
  | c :: r => if is_space c then skip_spaces r else s
  | [] => []
  end.

Definition backticks (s : pystr) : option pystr :=
  match s with
  | 96%N :: 96%N :: 96%N :: r => Some r
  | _ => None
  end.

(** The letters [json] after the opening fence; under [re.IGNORECASE]
    either case, and the long s (U+017F) for [s]. *)
Definition json_tag (ignorecase : bool) (s : pystr) : option pystr :=
  match s with
  | j :: s' :: o :: n :: r =>
      if ignorecase then
        if ((j =? 106) || (j =? 74))%N
           && ((s' =? 115) || (s' =? 83) || (s' =? 383))%N
           && ((o =? 111) || (o =? 79))%N
           && ((n =? 110) || (n =? 78))%N
        then Some r else None
      else
        if ((j =? 106) && (s' =? 115) && (o =? 111) && (n =? 110))%N
        then Some r else None
  | _ => None
  end.

Definition fence_follows (s : pystr) : bool :=
  match backticks (skip_spaces s) with Some _ => true | None => false end.

(** [.*?] up to the first [close] that white space and a fence follow;
    the result ends with that [close]. *)
Fixpoint lazy_span (close : N) (s : pystr) : option pystr :=
  match s with
  | [] => None
  | c :: r =>
      if (c =? close)%N && fence_follows r then Some [c]
      else match lazy_span close r with
           | Some g => Some (c :: g)
           | None => None
           end
  end.

(** [.*] up to the last [close]. *)
Fixpoint greedy_span (close : N) (s : pystr) : option pystr :=
  match s with
  | [] => None
  | c :: r =>
      match greedy_span close r with
      | Some g => Some (c :: g)
      | None => if (c =? close)%N then Some [c] else None
      end
  end.

(** Group 1 of [```json\s*(\{.*?\}|\[.*?\])\s*```] matched at the head. *)
Definition fenced_at (ignorecase : bool) (s : pystr) : option pystr :=
  match backticks s with
  | None => None
  | Some r =>
      match json_tag ignorecase r with
      | None => None
      | Some r' =>
          match skip_spaces r' with
          | c :: body =>
              if (c =? c_lbrace)%N then
                match lazy_span c_rbrace body with
                | Some g => Some (c :: g) | None => None end
              else if (c =? c_lbrack)%N then
                match lazy_span c_rbrack body with
                | Some g => Some (c :: g) | None => None end
              else None
          | [] => None
          end
      end
  end.

(** Group 1 of [(\{.*\}|\[.*\])] matched at the head. *)
Definition bare_at (s : pystr) : option pystr :=
  match s with
  | c :: body =>
      if (c =? c_lbrace)%N then
        match greedy_span c_rbrace body with
        | Some g => Some (c :: g) | None => None end
      else if (c =? c_lbrack)%N then
        match greedy_span c_rbrack body with
        | Some g => Some (c :: g) | None => None end
      else None
  | [] => None
  end.

(** [re.search]: the match at the leftmost position that has one. *)
Fixpoint search (at_head : pystr -> option pystr) (s : pystr) : option pystr :=
  match at_head s with
  | Some g => Some g
  | None => match s with
            | [] => None
            | _ :: r => search at_head r
            end
  end.

Definition search_fenced (ignorecase : bool) : pystr -> option pystr :=
  search (fenced_at ignorecase).
Definition search_bare : pystr -> option pystr := search bare_at.

(* ================================================================== *)
(** ** [json.loads] *)

Definition is_json_ws (c : N) : bool :=
  ((c =? 32) || (c =? 9) || (c =? 10) || (c =? 13))%N.

Fixpoint skip_json_ws (s : pystr) : pystr :=
  match s with
  | c :: r => if is_json_ws c then skip_json_ws r else s
  | [] => []
  end.

Definition hex_val (c : N) : option N :=
  (if (48 <=? c) && (c <=? 57) then Some (c - 48)
   else if (97 <=? c) && (c <=? 102) then Some (c - 87)
   else if (65 <=? c) && (c <=? 70) then Some (c - 55)
   else None)%N.

Definition hex4 (s : pystr) : option (N * pystr) :=
  match s with
  | a :: b :: c :: d :: r =>
      match hex_val a, hex_val b, hex_val c, hex_val d with
      | Some a', Some b', Some c', Some d' =>
          Some ((((a' * 16 + b') * 16 + c') * 16 + d')%N, r)
      | _, _, _, _ => None
      end
  | _ => None
  end.

Definition escape_char (e : N) : option N :=
  (if (e =? 34) || (e =? 92) || (e =? 47) then Some e
   else if e =? 98 then Some 8
   else if e =? 102 then Some 12
   else if e =? 110 then Some 10
   else if e =? 114 then Some 13
   else if e =? 116 then Some 9
   else None)%N.

(** The body of a string after its opening quote (strict mode): the
    decoded text and what follows the closing quote. *)
Fixpoint scan_string (fuel : nat) (s : pystr) (acc : pystr)
  : option (pystr * pystr) :=
  match fuel with
  | O => None
  | S fuel' =>
      match s with
      | [] => None
      | c :: r =>
          if (c =? c_quote)%N then Some (rev acc, r)
          else if (c =? c_backslash)%N then
            match r with
            | [] => None
            | e :: r' =>
                if (e =? 117)%N then
                  match hex4 r' with
                  | None => None
                  | Some (hi, r2) =>
                      if ((55296 <=? hi) && (hi <=? 56319))%N then
                        match r2 with
                        | 92%N :: 117%N :: r3 =>
                            match hex4 r3 with
                            | None => None
                            | Some (lo, r4) =>
                                if ((56320 <=? lo) && (lo <=? 57343))%N
                                then scan_string fuel' r4
                                       ((65536 + (hi - 55296) * 1024
                                         + (lo - 56320))%N :: acc)
                                else scan_string fuel' r2 (hi :: acc)
                            end
                        | _ => scan_string fuel' r2 (hi :: acc)
                        end
                      else scan_string fuel' r2 (hi :: acc)
                  end
                else
                  match escape_char e with
                  | Some ch => scan_string fuel' r' (ch :: acc)
                  | None => None
                  end
            end
          else if (c <? 32)%N then None
          else scan_string fuel' r (c :: acc)
      end
  end.

Fixpoint take_digits (s : pystr) : pystr * pystr :=
  match s with
  | c :: r =>
      if is_digit c then let (ds, rest) := take_digits r in (c :: ds, rest)
      else ([], s)
  | [] => ([], [])
  end.

(** The number pattern of the scanner: an optional minus, [0] or a run of
    digits that does not start with [0], an optional fraction, an optional
    exponent.  An [int] when there is neither fraction nor exponent, a
    [float] otherwise. *)
Definition scan_number (s : pystr) : option (value * pystr) :=
  let (neg, s1) := match s with
                   | 45%N :: r => (true, r)
                   | _ => (false, s)
                   end in
  match s1 with
  | c :: r =>
      if is_digit c then
        let (int_ds, s2) := if (c =? 48)%N then ([c], r) else take_digits s1 in
        let (frac, s3) :=
          match s2 with
          | 46%N :: r2 =>
              match take_digits r2 with
              | ([], _) => (None, s2)
              | (fd, r3) => (Some fd, r3)
              end
          | _ => (None, s2)
          end in
        let (expo, s4) :=
          match s3 with
          | e :: r3 =>
              if ((e =? 101) || (e =? 69))%N then
                let (eneg, r4) := match r3 with
                                  | 45%N :: r' => (true, r')
                                  | 43%N :: r' => (false, r')
                                  | _ => (false, r3)
                                  end in
                match take_digits r4 with
                | ([], _) => (None, s3)
                | (ed, r5) => (Some (cond_Zopp eneg (digits_val 0 ed)), r5)
                end
              else (None, s3)
          | [] => (None, s3)
          end in
        match frac, expo with
        | None, None => Some (VInt (cond_Zopp neg (digits_val 0 int_ds)), s4)
        | _, _ =>
            let fd := match frac with Some fd => fd | None => [] end in
            let ex := match expo with Some ex => ex | None => 0 end in
            Some (VFloat (float_of_decimal neg (digits_val 0 (int_ds ++ fd))
                                           (ex - Z.of_nat (List.length fd))), s4)
        end
      else None
  | [] => None
  end.

Fixpoint strip_prefix (p s : pystr) : option pystr :=
  match p, s with
  | [], _ => Some s
  | a :: p', b :: s' => if (a =? b)%N then strip_prefix p' s' else None
  | _ :: _, [] => None
  end.

(** The constants and numbers, tried in the order of the scanner. *)
Definition scan_atom (s : pystr) : option (value * pystr) :=
  match strip_prefix (u "null") s with
  | Some r => Some (VNone, r)
  | None =>
  match strip_prefix (u "true") s with
  | Some r => Some (VBool true, r)
  | None =>
  match strip_prefix (u "false") s with
  | Some r => Some (VBool false, r)
  | None =>
  match scan_number s with
  | Some res => Some res
  | None =>
  match strip_prefix (u "NaN") s with
  | Some r => Some (VFloat S754_nan, r)
  | None =>
  match strip_prefix (u "Infinity") s with
  | Some r => Some (VFloat (S754_infinity false), r)
  | None =>
  match strip_prefix (u "-Infinity") s with
  | Some r => Some (VFloat (S754_infinity true), r)
  | None => None
  end end end end end end end.

(** One value at the head of [s].  [scan_members] starts after the opening
    quote of a key, [scan_elements] at an element.  Fuel bounds the calls:
    each level of nesting and each element or member takes one unit and at
    least two characters of a text that decodes, so [json_loads_str]
    starts with enough. *)
Fixpoint scan_value (fuel : nat) (s : pystr) {struct fuel}
  : option (value * pystr) :=
  match fuel with
  | O => None
  | S fuel' =>
      match s with
      | [] => None
      | c :: r =>
          if (c =? c_quote)%N then
            match scan_string (List.length r) r [] with
            | Some (str, r') => Some (VStr str, r')
            | None => None
            end
          else if (c =? c_lbrace)%N then
            match skip_json_ws r with
            | 125%N :: r' => Some (VDict [], r')
            | 34%N :: r' =>
                match scan_members fuel' r' [] with
                | Some (d, r'') => Some (VDict d, r'')
                | None => None
                end
            | _ => None
            end
          else if (c =? c_lbrack)%N then
            match skip_json_ws r with
            | 93%N :: r' => Some (VList [], r')
            | s' =>
                match scan_elements fuel' s' [] with
                | Some (l, r'') => Some (VList l, r'')
                | None => None
                end
            end
          else scan_atom s
      end
  end
with scan_members (fuel : nat) (s : pystr) (acc : list (pystr * value))
  {struct fuel} : option (list (pystr * value) * pystr) :=
  match fuel with
  | O => None
  | S fuel' =>
      match scan_string (List.length s) s [] with
      | None => None
      | Some (key, r) =>
          match skip_json_ws r with
          | 58%N :: r1 =>
              match scan_value fuel' (skip_json_ws r1) with
              | None => None
              | Some (v, r2) =>
                  match skip_json_ws r2 with
                  | 125%N :: r3 => Some (dict_set acc key v, r3)
                  | 44%N :: r3 =>
                      match skip_json_ws r3 with
                      | 34%N :: r4 => scan_members fuel' r4 (dict_set acc key v)
                      | _ => None
                      end
                  | _ => None
                  end
              end
          | _ => None
          end
      end
  end
with scan_elements (fuel : nat) (s : pystr) (acc : list value)
  {struct fuel} : option (list value * pystr) :=
  match fuel with
  | O => None
  | S fuel' =>
      match scan_value fuel' s with
      | None => None
      | Some (v, r) =>
          match skip_json_ws r with
          | 93%N :: r1 => Some (rev (v :: acc), r1)
          | 44%N :: r1 => scan_elements fuel' (skip_json_ws r1) (v :: acc)
          | _ => None
          end
      end
  end.

(** [json.loads] of a [str]: one value, white space around it, nothing
    else; whatever else raises [JSONDecodeError].  The limits of the
    interpreter (recursion depth, the length of an integer literal) are
    not part of the model. *)
Definition json_loads_str (s : pystr) : result value :=
  match scan_value (S (S (List.length s))) (skip_json_ws s) with
  | Some (v, r) =>
      match skip_json_ws r with
      | [] => Ret v
      | _ => Raise JSONDecodeError
      end
  | None => Raise JSONDecodeError
  end.

(** [json.loads] of any value: a [TypeError] for what is no text. *)
Definition json_loads (v : value) : result value :=
  match v with
  | VStr s => json_loads_str s
  | _ => Raise TypeError
  end.

(* ================================================================== *)
(** ** Extractors *)

(** [format_data._extract_json_in_backticks] ([agents.py]): the text of the
    first fenced span, else of the widest bare span, else [None]; nothing
    is parsed here. *)
Definition _extract_json_in_backticks (text : value) : value :=
  match text with
  | VStr s =>
      match search_fenced true s with
      | Some g => VStr g
      | None =>
          match search_bare s with
          | Some g => VStr g
          | None => VNone
          end
      end
  | _ => VNone
  end.

(** [try: return json.loads(candidate)  except json.JSONDecodeError: pass]:
    [inl] is the value returned, [inr] what goes on after the handler. *)
Definition try_loads (candidate : pystr) : result (value + unit) :=
  match json_loads (VStr candidate) with
  | Ret v => Ret (inl v)
  | Raise JSONDecodeError => Ret (inr tt)
  | Raise e => Raise e
  end.

(** [_parse_json_blocks] ([main.py]): the extractor of the specification. *)
Definition _parse_json_blocks (text : value) : result value :=
  match text with
  | VList _ | VDict _ => Ret text
  | VStr s =>
      first <- match search_fenced false s with
               | Some candidate => try_loads candidate
               | None => Ret (inr tt)
               end ;;
      match first with
      | inl v => Ret v
      | inr _ =>
          second <- match search_bare s with
                    | Some candidate => try_loads candidate
                    | None => Ret (inr tt)
                    end ;;
          match second with
          | inl v => Ret v
          | inr _ => Ret VNone
          end
      end
  | _ => Ret VNone
  end.

(** The two stages of [_parse_json_blocks] on a text, each on its own. *)
Definition fenced_stage (s : pystr) : option value :=
  match search_fenced false s with
  | Some candidate =>
      match json_loads_str candidate with Ret v => Some v | Raise _ => None end
  | None => None
  end.

Definition bare_stage (s : pystr) : option value :=
  match search_bare s with
  | Some candidate =>
      match json_loads_str candidate with Ret v => Some v | Raise _ => None end
  | None => None
  end.

(* ================================================================== *)
(** ** Formatters: [format_data] *)

Definition city_keys : list pystr :=
  [ u "place"; u "reason"; u "weather_suitability"; u "travel_cost_estimate";
    u "accommodation_range"; u "safety_rating"; u "accessibility";
    u "permit_required"; u "photos" ].

(** The record built for one element of the destination list. *)
Definition format_place (item : value) : result value :=
  place <- py_get item (u "place") (VStr (u "Unknown")) ;;
  reason <- py_get item (u "reason") (VStr (u "No reason provided.")) ;;
  weather_suitability <- py_get item (u "weather_suitability") (VStr em_dash) ;;
  travel_cost_estimate <- py_get item (u "travel_cost_estimate") (VDict []) ;;
  accommodation_range <- py_get item (u "accommodation_range") (VStr em_dash) ;;
  safety_rating <- py_get item (u "safety_rating") (VStr em_dash) ;;
  accessibility <- py_get item (u "accessibility") (VStr em_dash) ;;
  permit_required <- py_get item (u "permit_required") (VStr em_dash) ;;
  photos <- py_get item (u "photos") (VList []) ;;
  Ret (VDict [ (u "place", place);
               (u "reason", reason);
               (u "weather_suitability", weather_suitability);
               (u "travel_cost_estimate", travel_cost_estimate);
               (u "accommodation_range", accommodation_range);
               (u "safety_rating", safety_rating);
               (u "accessibility", accessibility);
               (u "permit_required", permit_required);
               (u "photos", photos) ]).

(** The loop [for item in places: formatted.append(...)]. *)
Fixpoint format_places (items : list value) : result (list value) :=
  match items with
  | [] => Ret []
  | item :: rest =>
      p <- format_place item ;;
      ps <- format_places rest ;;
      Ret (p :: ps)
  end.

Definition format_city_suggestions (places_data : value) : result value :=
  let parsed :=
    if is_list places_data then Ret places_data
    else json_loads (py_or (_extract_json_in_backticks places_data) places_data) in
  match parsed with
  | Raise _ => Ret (VList [])
  | Ret places =>
      items <- py_iter places ;;
      formatted <- format_places items ;;
      Ret (VList formatted)
  end.

(** [data.get(k, []) if isinstance(data.get(k, []), list) else []] *)
Definition list_field (data : value) (k : pystr) : result value :=
  probe <- py_get data k (VList []) ;;
  if is_list probe then py_get data k (VList []) else Ret (VList []).

Definition format_local_expertise (local_output : value) : result value :=
  let raw := py_or (_extract_json_in_backticks local_output) local_output in
  let parsed := if is_str raw then json_loads raw else Ret (py_or raw (VDict [])) in
  match parsed with
  | Raise _ => Ret (VDict [])
  | Ret data =>
      top_attractions <- list_field data (u "top_attractions") ;;
      local_cuisine <- list_field data (u "local_cuisine") ;;
      Ret (VDict [ (u "top_attractions", top_attractions);
                   (u "local_cuisine", local_cuisine) ])
  end.

Definition invalid_json : value :=
  VDict [ (u "error", VStr (u "Invalid JSON format received from the model.")) ].

Definition format_trip_schedule (schedule_json : value) : result value :=
  if is_dict schedule_json then Ret schedule_json
  else
    let raw := py_or (_extract_json_in_backticks schedule_json)
                     (py_or schedule_json (VStr [])) in
    Ret (try_except (json_loads raw) invalid_json).

(** The body shared by the six formatters that follow, each of which is
    written out in the source:
    [js = extract(raw) or raw; try: return json.loads(js)
     except Exception: return {}]. *)
Definition loads_or_empty (raw : value) : result value :=
  let js := py_or (_extract_json_in_backticks raw) raw in
  Ret (try_except (json_loads js) (VDict [])).

Definition format_safety_info (raw : value) : result value := loads_or_empty raw.
Definition format_packing_list (raw : value) : result value := loads_or_empty raw.
Definition format_budget_breakdown (raw : value) : result value := loads_or_empty raw.
Definition format_transport_options (raw : value) : result value := loads_or_empty raw.
Definition format_accommodation_suggestions (raw : value) : result value :=
  loads_or_empty raw.
Definition format_reviews (raw : value) : result value := loads_or_empty raw.

(** The nine normalizers and the keys their schemas document (the task
    prompts of [Triptasks]). *)
Inductive normalizer : Type :=
  | CitySuggestions | LocalExpertise | TripSchedule | SafetyInfo | PackingList
  | BudgetBreakdown | TransportOptions | AccommodationSuggestions | Reviews.

Definition normalize (k : normalizer) : value -> result value :=
  match k with
  | CitySuggestions => format_city_suggestions
  | LocalExpertise => format_local_expertise
  | TripSchedule => format_trip_schedule
  | SafetyInfo => format_safety_info
  | PackingList => format_packing_list
  | BudgetBreakdown => format_budget_breakdown
  | TransportOptions => format_transport_options
  | AccommodationSuggestions => format_accommodation_suggestions
  | Reviews => format_reviews
  end.

Definition documented_keys (k : normalizer) : list pystr :=
  match k with
  | CitySuggestions => city_keys
  | LocalExpertise => [ u "top_attractions"; u "local_cuisine" ]
  | TripSchedule => [ u "itinerary" ]
  | SafetyInfo =>
      [ u "overall_risk_level"; u "common_scams"; u "neighborhood_safety";
        u "local_laws_and_norms"; u "health"; u "emergency_contacts";
        u "solo_travel_tips" ]
  | PackingList =>
      [ u "season"; u "essentials"; u "clothing"; u "footwear";
        u "toiletries_health"; u "gadgets"; u "documents_money";
        u "optional_activity_specific" ]
  | BudgetBreakdown =>
      [ u "budget_range"; u "per_day_estimate_per_person"; u "notes" ]
  | TransportOptions => [ u "intercity"; u "in_city" ]
  | AccommodationSuggestions => [ u "neighborhoods"; u "stays" ]
  | Reviews => [ u "attractions"; u "restaurants" ]
  end.

(** A record with every key of [keys]; for a list, every element is one. *)
Definition has_keys (keys : list pystr) (v : value) : bool :=
  forallb (has_key v) keys.

Definition fully_populated (keys : list pystr) (v : value) : bool :=
  match v with
  | VList l => forallb (has_keys keys) l
  | _ => has_keys keys v
  end.

(* ================================================================== *)
(** ** City selection with live weather: [Tripcrew.run] *)

(** What the run depends on outside the program: the clock, whether
    [OPENWEATHER_API_KEY] is set, and the weather service (the decoded
    response for a city, or the exception of a failed request). *)
Record World : Type := mkWorld {
  today : date;
  api_key_set : bool;
  weather_service : value -> result value
}.

Definition get_current_weather (w : World) (city_name : value) : value :=
  if negb (api_key_set w) then VNone
  else
    try_except
      (data <- weather_service w city_name ;;
       main <- py_getitem data (u "main") ;;
       temperature <- py_getitem main (u "temp") ;;
       weather <- py_getitem data (u "weather") ;;
       first <- py_getitem0 weather ;;
       description <- py_getitem first (u "description") ;;
       main' <- py_getitem data (u "main") ;;
       humidity <- py_getitem main' (u "humidity") ;;
       wind <- py_getitem data (u "wind") ;;
       wind_speed <- py_getitem wind (u "speed") ;;
       Ret (VDict [ (u "temperature", temperature);
                    (u "description", description);
                    (u "humidity", humidity);
                    (u "wind_speed", wind_speed) ]))
      VNone.

(** [place["weather"] = v] *)
Definition py_setitem (obj : value) (k : pystr) (v : value) : result value :=
  match obj with
  | VDict d => Ret (VDict (dict_set d k v))
  | _ => Raise TypeError
  end.

(** The body of the loop over [formatted_places]. *)
Definition attach_weather (w : World) (place : value) : result value :=
  city_name <- py_get place (u "place") VNone ;;
  if truthy city_name then
    let weather := get_current_weather w city_name in
    py_setitem place (u "weather") (if truthy weather then weather else VDict [])
  else Ret place.

Fixpoint attach_weather_all (w : World) (places : list value)
  : result (list value) :=
  match places with
  | [] => Ret []
  | place :: rest =>
      p <- attach_weather w place ;;
      ps <- attach_weather_all w rest ;;
      Ret (p :: ps)
  end.

(** [run] from the raw task output on. *)
Definition Tripcrew_run (w : World) (inputs : Inputs) (task_output : value)
  : result value :=
  formatted_places <- format_city_suggestions task_output ;;
  if should_show_weather (today w) inputs then
    places <- py_iter formatted_places ;;
    with_weather <- attach_weather_all w places ;;
    Ret (VList with_weather)
  else Ret formatted_places.

(* ================================================================== *)
(** ** Wizard: the local-insights stage of [main.py] *)

Record WizardState : Type := mkWizard {
  step : Z;
  selected_place : value;
  local_info : value;
  selected_attractions : list value;
  selected_cuisines : list value;
  itinerary : value
}.

(** What the user did in this run of the page. *)
Inductive click : Type := NoClick | ClickBack | ClickContinue.

(** [st.button(label, disabled=d)]: a disabled button is never pressed. *)
Definition button (pressed disabled : bool) : bool := pressed && negb disabled.

(** [bool(selected_attractions or selected_cuisines)] *)
Definition can_continue (st : WizardState) : bool :=
  truthy (py_or (VList (selected_attractions st)) (VList (selected_cuisines st))).

Definition set_step (st : WizardState) (n : Z) : WizardState :=
  mkWizard n (selected_place st) (local_info st) (selected_attractions st)
           (selected_cuisines st) (itinerary st).

Definition set_itinerary (st : WizardState) (v : value) : WizardState :=
  mkWizard (step st) (selected_place st) (local_info st)
           (selected_attractions st) (selected_cuisines st) v.

(** The two buttons at the foot of [step2_local_insights]; [schedule_json]
    is what [run_schedule_trip] returns for the current selections. *)
Definition step2_local_insights (st : WizardState) (c : click)
  (schedule_json : value) : result WizardState :=
  if button (match c with ClickBack => true | _ => false end) false
  then Ret (set_step st 1)
  else if button (match c with ClickContinue => true | _ => false end)
                 (negb (can_continue st))
  then
    formatted <- format_trip_schedule schedule_json ;;
    Ret (set_step (set_itinerary st formatted) 3)
  else Ret st.

(* ================================================================== *)
(** ** The flows of [Tripcrew] from the crew's result on *)

(** What [crew.kickoff()] hands back, as far as the flows look at it:
    whether it has [tasks_output], and the [raw] text of each task
    output. *)
Inductive crew_result : Type :=
  | NoTasksOutput
  | TasksOutput (raws : list pystr).

Definition no_output : value := VStr (u "No output").

(** [result.tasks_output[0].raw] behind the test that [tasks_output] is
    there and not empty: [run], [run_local_expert], [run_schedule_trip]. *)
Definition first_raw_or_default (r : crew_result) : value :=
  match r with
  | TasksOutput (raw :: _) => VStr raw
  | _ => no_output
  end.

(** [result.tasks_output[0].raw if hasattr(result, "tasks_output")
    else "No output"]: the six later flows. *)
Definition first_raw (r : crew_result) : result value :=
  match r with
  | TasksOutput (raw :: _) => Ret (VStr raw)
  | TasksOutput [] => Raise IndexError
  | NoTasksOutput => Ret no_output
  end.

(** [Tripcrew.run], the crew's result being given. *)
Definition run (w : World) (inputs : Inputs) (r : crew_result) : result value :=
  Tripcrew_run w inputs (first_raw_or_default r).

Definition run_safety_info (r : crew_result) : result value := first_raw r.
Definition run_packing_list (r : crew_result) : result value := first_raw r.
Definition run_budget_breakdown (r : crew_result) : result value := first_raw r.
Definition run_transport_options (r : crew_result) : result value := first_raw r.
Definition run_accommodation_suggestions (r : crew_result) : result value :=
  first_raw r.
Definition run_reviews_and_ratings (r : crew_result) : result value :=
  first_raw r.

(* ================================================================== *)
(** ** The endpoints of [main-two.py] *)

Definition generate_trip (w : World) (preferences : Inputs) (r : crew_result)
  : result value :=
  planner <- Tripcrew_init preferences ;;
  result <- run w planner r ;;
  formatted <- format_city_suggestions result ;;
  Ret (VDict [ (u "raw", result); (u "places", formatted) ]).



(** The six later endpoints differ in the flow and the formatter only. *)
Definition later_endpoint (flow : crew_result -> result value)
  (formatter : value -> result value) (preferences : Inputs) (r : crew_result)
  : result value :=
  planner <- Tripcrew_init preferences ;;
  raw <- flow r ;;
  formatted <- formatter raw ;;
  Ret (VDict [ (u "raw", raw); (u "formatted", formatted) ]).

Definition safety_info := later_endpoint run_safety_info format_safety_info.
Definition packing_list := later_endpoint run_packing_list format_packing_list.
Definition budget_breakdown :=
  later_endpoint run_budget_breakdown format_budget_breakdown.
Definition transport_options :=
  later_endpoint run_transport_options format_transport_options.
Definition accommodation_suggestions :=
  later_endpoint run_accommodation_suggestions format_accommodation_suggestions.
Definition reviews := later_endpoint run_reviews_and_ratings format_reviews.

(* ================================================================== *)
(** ** Session state: [_init_state] and the reset of [main.py] *)

(** [st.session_state], a mapping from key to value. *)
Definition session := list (pystr * value).

Definition defaults : session :=
  [ (u "step", VInt 0);
    (u "preferences", VNone);
    (u "suggestions", VList []);
    (u "suggestions_raw", VNone);
    (u "selected_place", VNone);
    (u "local_info", VNone);
    (u "selected_attractions", VList []);
    (u "selected_cuisines", VList []);
    (u "itinerary", VNone);
    (u "safety", VNone);
    (u "packing", VNone);
    (u "budget", VNone);
    (u "transport", VNone);
    (u "accommodation", VNone);
    (u "reviews", VNone);
    (u "final_export", VNone) ].

(** [if k not in st.session_state: st.session_state[k] = v] *)
Definition set_default (s : session) (kv : pystr * value) : session :=
  match dict_lookup s (fst kv) with
  | Some _ => s
  | None => dict_set s (fst kv) (snd kv)
  end.

Definition _init_state (s : session) : session := fold_left set_default defaults s.

(** [del d[k]] *)
Fixpoint dict_del (d : list (pystr * value)) (k : pystr) : list (pystr * value) :=
  match d with
  | [] => []
  | (k', v) :: d' => if pystr_eqb k' k then d' else (k', v) :: dict_del d' k
  end.

(** [for key in list(st.session_state.keys()): del st.session_state[key]]
    and then [_init_state()]: the Reset button and "Finish & Start Over". *)
Definition reset (s : session) : session :=
  _init_state (fold_left dict_del (dict_keys s) s).

(* ================================================================== *)
(** ** The stored suggestions: [step0_preferences] of [main.py] *)

Section Enrichment.

(** [str(v)].  The text of a text is the text itself; what [str] makes of
    the other values is left open. *)
Variable py_str : value -> pystr.

(** [item.get("place") or item.get("city") or item.get("destination")] *)
Definition place_key (item : value) : result value :=
  place <- py_get item (u "place") VNone ;;
  if truthy place then Ret place
  else
    city <- py_get item (u "city") VNone ;;
    if truthy city then Ret city
    else py_get item (u "destination") VNone.

(** [{str(...): item for item in parsed if isinstance(item, dict)}] *)
Fixpoint by_place_of (parsed : list value) (acc : list (pystr * value))
  : result (list (pystr * value)) :=
  match parsed with
  | [] => Ret acc
  | item :: rest =>
      if is_dict item then
        key <- place_key item ;;
        by_place_of rest (dict_set acc (py_str key) item)
      else by_place_of rest acc
  end.

(** [by_place.get(place, {})]: the keys are texts, so only a text finds
    an entry; a list or a mapping cannot be hashed. *)
Definition by_place_get (by_place : list (pystr * value)) (place : value)
  : result value :=
  match place with
  | VList _ | VDict _ => Raise TypeError
  | VStr p =>
      Ret (match dict_lookup by_place p with Some ref => ref | None => VDict [] end)
  | _ => Ret (VDict [])
  end.

(** [{**d, k1: v1, ...}] *)
Definition dict_update (d kvs : list (pystr * value)) : list (pystr * value) :=
  fold_left (fun acc kv => dict_set acc (fst kv) (snd kv)) kvs d.

(** The body of the loop [for s in suggestions]. *)
Definition combined (by_place : list (pystr * value)) (s : value)
  : result value :=
  place <- py_get s (u "place") VNone ;;
  ref <- by_place_get by_place place ;;
  match s with
  | VDict d =>
      weather_suitability <- py_get ref (u "weather_suitability") VNone ;;
      travel_cost_estimate <- py_get ref (u "travel_cost_estimate") VNone ;;
      accommodation_range <- py_get ref (u "accommodation_range") VNone ;;
      safety_rating <- py_get ref (u "safety_rating") VNone ;;
      accessibility <- py_get ref (u "accessibility") VNone ;;
      permit_required <- py_get ref (u "permit_required") VNone ;;
      ref_photos <- py_get ref (u "photos") VNone ;;
      photos <- (if truthy ref_photos then Ret ref_photos
                 else py_get s (u "photos") VNone) ;;
      Ret (VDict (dict_update d
                    [ (u "weather_suitability", weather_suitability);
                      (u "travel_cost_estimate", travel_cost_estimate);
                      (u "accommodation_range", accommodation_range);
                      (u "safety_rating", safety_rating);
                      (u "accessibility", accessibility);
                      (u "permit_required", permit_required);
                      (u "photos", photos) ]))
  | _ => Raise TypeError
  end.

Fixpoint enrich_all (by_place : list (pystr * value)) (suggestions : list value)
  : result (list value) :=
  match suggestions with
  | [] => Ret []
  | s :: rest =>
      c <- combined by_place s ;;
      cs <- enrich_all by_place rest ;;
      Ret (c :: cs)
  end.

(** From [output = planner.run()] to the list stored in
    [st.session_state.suggestions]. *)
Definition enrich (output : value) : result value :=
  formatted <- format_city_suggestions output ;;
  let suggestions := py_or formatted (VList []) in
  found <- _parse_json_blocks output ;;
  let parsed := py_or found (VList []) in
  let parsed := if is_dict parsed then VList [parsed] else parsed in
  items <- py_iter parsed ;;
  by_place <- by_place_of items [] ;;
  ss <- py_iter suggestions ;;
  enriched <- enrich_all by_place ss ;;
  Ret (VList enriched).

(** The button "Get Suggestions": what is stored as [suggestions_raw] and
    as [suggestions]. *)
Definition step0_suggestions (w : World) (prefs : Inputs) (r : crew_result)
  : result (value * value) :=
  planner <- Tripcrew_init prefs ;;
  output <- run w planner r ;;
  enriched <- enrich output ;;
  Ret (output, enriched).

End Enrichment.

(* ================================================================== *)
(** ** The final payload: [step10_final] of [main.py] *)

(** [st.session_state.k]: a key that is not there raises. *)
Definition session_attr (s : session) (k : pystr) : result value :=
  match dict_lookup s k with
  | Some v => Ret v
  | None => Raise AttributeError
  end.

(** The keys of ["tripPlan"], each read from the session under the same
    name. *)
Definition exported_keys : list pystr :=
  [ u "preferences"; u "selected_place"; u "suggestions"; u "local_info";
    u "selected_attractions"; u "selected_cuisines"; u "itinerary";
    u "safety"; u "packing"; u "budget"; u "transport"; u "accommodation";
    u "reviews" ].

Fixpoint read_session (s : session) (ks : list pystr)
  : result (list (pystr * value)) :=
  match ks with
  | [] => Ret []
  | k :: rest =>
      v <- session_attr s k ;;
      vs <- read_session s rest ;;
      Ret ((k, v) :: vs)
  end.

Definition final_payload (s : session) : result value :=
  fields <- read_session s exported_keys ;;
  Ret (VDict [ (u "tripPlan", VDict fields) ]).

(** [step10_final] up to the display: the payload is stored as
    [final_export]. *)
Definition step10_final (s : session) : result session :=
  payload <- final_payload s ;;
  Ret (dict_set s (u "final_export") payload).

(** A run of [main] that reaches the last page, no sidebar button being
    pressed: [_init_state], then [step10_final]. *)
Definition main_final (s : session) : result session :=
  step10_final (_init_state s).

(* ================================================================== *)
(** ** Vocabulary of the statements *)

Definition categories : list pystr :=
  [ u "transport"; u "accommodation"; u "food"; u "entertainment" ].

(** The default [format_city_suggestions] substitutes for each key. *)
Definition city_default (k : pystr) : value :=
  if pystr_eqb k (u "place") then VStr (u "Unknown")
  else if pystr_eqb k (u "reason") then VStr (u "No reason provided.")
  else if pystr_eqb k (u "travel_cost_estimate") then VDict []
  else if pystr_eqb k (u "photos") then VList []
  else VStr em_dash.

(** [item.get(k, default)] on a mapping. *)
Definition field_or_default (d : list (pystr * value)) (k : pystr) : value :=
  match dict_lookup d k with
  | Some v => v
  | None => city_default k
  end.

(** The record of one element, as a function of the element. *)
Definition formatted_place (item : value) : value :=
  match item with
  | VDict d => VDict (map (fun k => (k, field_or_default d k)) city_keys)
  | other => other
  end.

Definition passthrough_normalizers : list normalizer :=
  [ SafetyInfo; PackingList; BudgetBreakdown; TransportOptions;
    AccommodationSuggestions; Reviews ].

Definition k_weather : pystr := u "weather".

(** How one candidate leaves the weather loop. *)
Definition weather_slot (w : World) (p p' : value) : Prop :=
  exists d city,
    p = VDict d
    /\ dict_lookup d (u "place") = Some city
    /\ dict_lookup d k_weather = None
    /\ ((truthy city = false /\ p' = p)
        \/ (truthy city = true
            /\ get_current_weather w city = VNone
            /\ p' = VDict (dict_set d k_weather (VDict [])))
        \/ (truthy city = true
            /\ exists t ds h s,
                 get_current_weather w city
                 = VDict [ (u "temperature", t); (u "description", ds);
                           (u "humidity", h); (u "wind_speed", s) ]
                 /\ p' = VDict (dict_set d k_weather
                                  (VDict [ (u "temperature", t);
                                           (u "description", ds);
                                           (u "humidity", h);
                                           (u "wind_speed", s) ])))).

(** A record as [format_city_suggestions] builds it. *)
Definition is_formatted (p : value) : Prop :=
  exists d, p = VDict (map (fun k => (k, field_or_default d k)) city_keys).

(** A world in which the key is set and every request fails. *)
Definition failing_world : World :=
  mkWorld (mkdate 2026 11 3) true (fun _ => Raise RequestException).

Definition opens_structure (g : pystr) : Prop :=
  exists c r, g = c :: r /\ (c = c_lbrace \/ c = c_lbrack).

(** A value is structured when it is an array or an object. *)
Definition structured (v : value) : bool := is_list v || is_dict v.

(** The split as the specification words it: exact floors of the
    percentages of the total. *)
Definition spec_split (total : Z) : ranges :=
  [ (u "transport", Some (25 * total / 100, 35 * total / 100));
    (u "accommodation", Some (35 * total / 100, 45 * total / 100));
    (u "food", Some (15 * total / 100, 25 * total / 100));
    (u "entertainment", Some (5 * total / 100, 15 * total / 100)) ].

(** The split the constructor computes, [m] standing for [int(0.35 * total)]. *)
Definition code_split (total m : Z) : ranges :=
  [ (u "transport", Some (25 * total / 100, m));
    (u "accommodation", Some (m, 45 * total / 100));
    (u "food", Some (15 * total / 100, 25 * total / 100));
    (u "entertainment", Some (5 * total / 100, 15 * total / 100)) ].


(** The six later endpoints. *)
Definition later_endpoints : list (Inputs -> crew_result -> result value) :=
  [ safety_info; packing_list; budget_breakdown; transport_options;
    accommodation_suggestions; reviews ].

(** A split as the constructor writes it: the four categories in order,
    each with a pair. *)
Definition is_split (r : ranges) : Prop :=
  exists t_lo t_hi a_lo a_hi f_lo f_hi e_lo e_hi,
    r = [ (u "transport", Some (t_lo, t_hi));
          (u "accommodation", Some (a_lo, a_hi));
          (u "food", Some (f_lo, f_hi));
          (u "entertainment", Some (e_lo, e_hi)) ].

(** Every bound of a split negated. *)
Definition negate_ranges (r : ranges) : ranges :=
  map (fun kv => (fst kv, match snd kv with
                          | Some (lo, hi) => Some (- lo, - hi)
                          | None => None
                          end)) r.

(** [open] occurs in [s] with [close] somewhere after it. *)
Definition has_pair (open close : N) (s : pystr) : Prop :=
  exists a b c, s = a ++ open :: b ++ close :: c.

(** A span: [{ ... }] or [[ ... ]]. *)
Definition is_span (g : pystr) : Prop :=
  exists body,
    g = c_lbrace :: body ++ [c_rbrace] \/ g = c_lbrack :: body ++ [c_rbrack].

(** The name of a candidate: its [place] when that is a text that is not
    empty. *)
Definition place_name (p : value) : option pystr :=
  match p with
  | VDict d =>
      match dict_lookup d (u "place") with
      | Some (VStr (c :: s)) => Some (c :: s)
      | _ => None
      end
  | _ => None
  end.

(** Every candidate has a name and no two have the same. *)
Definition distinct_names (places : list value) : Prop :=
  exists names, map place_name places = map Some names /\ NoDup names.

(** The [place] of a candidate is a list or a mapping. *)
Definition unhashable_place (p : value) : bool :=
  match p with
  | VDict d =>
      match dict_lookup d (u "place") with
      | Some (VList _) | Some (VDict _) => true
      | _ => false
      end
  | _ => false
  end.

(** The [place] of a candidate is [None], a truth value or a number. *)
Definition scalar_place (p : value) : bool :=
  match p with
  | VDict d =>
      match dict_lookup d (u "place") with
      | Some VNone | Some (VBool _) | Some (VInt _) | Some (VFloat _) => true
      | _ => false
      end
  | _ => false
  end.

(** The fields the enrichment takes from the parsed answer. *)
Definition comparison_keys : list pystr :=
  [ u "weather_suitability"; u "travel_cost_estimate"; u "accommodation_range";
    u "safety_rating"; u "accessibility"; u "permit_required" ].

(** A [str] that is right on texts. *)
Definition str_of_text (v : value) : pystr :=
  match v with
  | VStr s => s
  | _ => u "None"
  end.

(** After [run], an entry is the formatted record or that record with a
    weather slot. *)
Definition with_slot (p p' : value) : Prop :=
  p' = p \/ exists d x, p = VDict d /\ p' = VDict (dict_set d k_weather x).


(** What the enrichment leaves of a formatted entry [p] in the stored
    entry [c]: the nine keys in their order, the place and the reason; and
    when the place is [None], a truth value or a number, [None] in the six
    comparison fields. *)
Definition entry_kept (p c : value) : Prop :=
  exists dp dc,
    p = VDict dp /\ c = VDict dc
    /\ dict_keys dc = city_keys
    /\ dict_lookup dc (u "place") = dict_lookup dp (u "place")
    /\ dict_lookup dc (u "reason") = dict_lookup dp (u "reason")
    /\ (scalar_place p = true ->
        forall k, In k comparison_keys -> dict_lookup dc k = Some VNone).

Definition dict_valued (d : list (pystr * value)) : Prop :=
  Forall (fun kv => is_dict (snd kv) = true) d.

(* ================================================================== *)
(** * Properties *)

(** ** The models on sample inputs *)

Example toordinal_2026_11_03 : toordinal (mkdate 2026 11 3) = 739923.
Proof. reflexivity. Qed.

Example strptime_lenient :
  strptime_ymd (u "2024-1-5") = Some (mkdate 2024 1 5)
  /\ strptime_ymd (u "2024-02-30") = None
  /\ strptime_ymd (u "0000-01-01") = None
  /\ strptime_ymd (u "2024-13-01") = None
  /\ strptime_ymd (u "2024-01-011") = None
  /\ strptime_ymd (u "2024-01- 5") = Some (mkdate 2024 1 5).
Proof. repeat split; reflexivity. Qed.

Example split_60000 :
  split_budget 60000 =
  Ret [ (u "transport", Some (15000, 21000));
        (u "accommodation", Some (21000, 27000));
        (u "food", Some (9000, 15000));
        (u "entertainment", Some (3000, 9000)) ].
Proof. vm_compute. reflexivity. Qed.

Example product_180 : int_of_product lit_0_35 180 = Ret 62.
Proof. vm_compute. reflexivity. Qed.

Example json_loads_samples :
  json_loads_str (uq "[{'place':'Hampi'}]")
    = Ret (VList [VDict [(u "place", VStr (u "Hampi"))]])
  /\ json_loads_str (uq " {'a': [1, -2.5e1, true, null], 'a': 'x\u00e9\n'} ")
    = Ret (VDict [(u "a", VStr [120; 233; 10]%N)])
  /\ json_loads_str (uq "[1, 2,]") = Raise JSONDecodeError
  /\ json_loads_str (uq "01") = Raise JSONDecodeError
  /\ json_loads_str (uq "{'a':1} x") = Raise JSONDecodeError
  /\ json_loads_str (uq "[[[[]]], {}, 0.5, -0]")
    = Ret (VList [VList [VList [VList []]]; VDict [];
                  VFloat (S754_finite false 4503599627370496 (-53)); VInt 0])
  /\ json_loads_str (uq "") = Raise JSONDecodeError
  /\ json_loads_str (uq "Hampi") = Raise JSONDecodeError.
Proof. repeat split; vm_compute; reflexivity. Qed.

(* ================================================================== *)
(** ** Strings and results: basic facts *)

Lemma pystr_eqb_eq (a b : pystr) : pystr_eqb a b = true <-> a = b.
Proof.
  revert b; induction a as [|x a IH]; intros [|y b]; simpl;
    try (split; [discriminate | congruence]); try tauto.
  rewrite andb_true_iff, N.eqb_eq, IH.
  split; [intros [-> ->]; reflexivity | intros H; inversion H; auto].
Qed.

Lemma pystr_eqb_refl (a : pystr) : pystr_eqb a a = true.
Proof. apply pystr_eqb_eq; reflexivity. Qed.

(* ================================================================== *)
(** ** Weather gate *)

Section WeatherGate.
Variable today : date.



End WeatherGate.



(** The label the Streamlit form passes is not the value the gate tests. *)
Example form_label_never_opens_gate (today : date) (s : pystr) :
  should_show_weather today
    (mkInputs None None (Some s) (Some (u "Holiday based"))) = false.
Proof.
  unfold should_show_weather. destruct s as [|c s]; [reflexivity|].
  cbn [start_date planning_style str_missing orb].
  destruct (strptime_ymd (c :: s)); reflexivity.
Qed.

(* ================================================================== *)
(** ** Budget: ranges supplied by the caller *)

Lemma all_none_has_value (r : ranges) (k : pystr) (p : Z * Z) :
  In (k, Some p) r -> all_none r = false.
Proof.
  induction r as [|[k' v] r IH]; simpl; [tauto|].
  intros [E | Hin].
  - inversion E; subst. reflexivity.
  - rewrite (IH Hin). apply andb_false_r.
Qed.

Lemma ranges_usable (r : ranges) (k : pystr) (p : Z * Z) :
  In (k, Some p) r -> ranges_unusable (Some r) = false.
Proof.
  intros Hin. destruct r as [|kv r]; [destruct Hin|].
  cbn [ranges_unusable]. exact (all_none_has_value _ k p Hin).
Qed.

(** C3. Whatever the total, when the supplied category ranges give at
    least one of the four categories a non-null value, the derivation
    returns the supplied ranges unchanged: no split is computed. *)
Theorem derive_budget_keeps_supplied_ranges
  (total : option Z) (r : ranges) (k : pystr) (p : Z * Z) :
  In k categories -> In (k, Some p) r ->
  derive_budget total (Some r) = Ret (Some r)
  /\ forall sd ps,
       Tripcrew_init (mkInputs total (Some r) sd ps)
       = Ret (mkInputs total (Some r) sd ps).
Proof.
  intros _ Hin. pose proof (ranges_usable r k p Hin) as Hu.
  unfold derive_budget, Tripcrew_init.
  cbn [budget_range total_budget]. rewrite Hu. simpl. auto.
Qed.

Lemma derive_budget_keeps_supplied_ranges_witness :
  derive_budget (Some 60000)
    (Some [ (u "transport", None); (u "accommodation", None);
            (u "food", Some (500, 900)); (u "entertainment", None) ])
  = Ret (Some [ (u "transport", None); (u "accommodation", None);
                (u "food", Some (500, 900)); (u "entertainment", None) ]).
Proof.
  apply (derive_budget_keeps_supplied_ranges (Some 60000) _ (u "food") (500, 900)).
  - simpl. auto.
  - simpl. auto.
Defined.

(* ================================================================== *)
(** ** Wizard: leaving the local-insights stage *)

Lemma can_continue_iff (st : WizardState) :
  can_continue st = false
  <-> selected_attractions st = [] /\ selected_cuisines st = [].
Proof.
  unfold can_continue, py_or.
  destruct (selected_attractions st), (selected_cuisines st); simpl;
    split; try tauto; try discriminate; intros [? ?]; discriminate.
Qed.

(** C8. The forward transition out of the local-insights stage is refused
    (the state, and so the stage index, stays as it is) when both the
    selected attractions and the selected cuisines are empty, and is taken
    (the wizard moves to the itinerary stage) when at least one of them is
    not. *)
Theorem local_insights_forward_guard (st : WizardState) (schedule_json : value) :
  (selected_attractions st = [] -> selected_cuisines st = [] ->
   step2_local_insights st ClickContinue schedule_json = Ret st)
  /\ (selected_attractions st <> [] \/ selected_cuisines st <> [] ->
      exists plan,
        format_trip_schedule schedule_json = Ret plan
        /\ step2_local_insights st ClickContinue schedule_json
           = Ret (set_step (set_itinerary st plan) 3)).
Proof.
  unfold step2_local_insights, button. cbn [andb negb].
  split.
  - intros Ha Hc.
    rewrite (proj2 (can_continue_iff st) (conj Ha Hc)). reflexivity.
  - intros Hne.
    destruct (can_continue st) eqn:E.
    + cbn [negb andb]. unfold format_trip_schedule.
      destruct (is_dict schedule_json); eexists; split; reflexivity.
    + apply can_continue_iff in E. tauto.
Qed.

Lemma local_insights_forward_guard_witness :
  step2_local_insights
    (mkWizard 2 (VStr (u "Hampi")) VNone [] [] VNone) ClickContinue (VStr [])
  = Ret (mkWizard 2 (VStr (u "Hampi")) VNone [] [] VNone)
  /\ exists plan,
       step2_local_insights
         (mkWizard 2 (VStr (u "Hampi")) VNone [] [VStr (u "Dosa")] VNone)
         ClickContinue (VStr [])
       = Ret (mkWizard 3 (VStr (u "Hampi")) VNone [] [VStr (u "Dosa")] plan).
Proof.
  split.
  - apply (proj1 (local_insights_forward_guard
                    (mkWizard 2 (VStr (u "Hampi")) VNone [] [] VNone)
                    (VStr []))); reflexivity.
  - destruct (proj2 (local_insights_forward_guard
                       (mkWizard 2 (VStr (u "Hampi")) VNone []
                                 [VStr (u "Dosa")] VNone)
                       (VStr [])))
      as (plan & _ & H).
    + right. discriminate.
    + exists plan. exact H.
Defined.

(* ================================================================== *)
(** ** The destination list *)

Lemma format_place_dict (d : list (pystr * value)) :
  format_place (VDict d)
  = Ret (VDict (map (fun k => (k, field_or_default d k)) city_keys)).
Proof. reflexivity. Qed.

Lemma format_place_not_dict (v : value) :
  is_dict v = false -> format_place v = Raise AttributeError.
Proof. destruct v; simpl; intros H; try reflexivity; discriminate. Qed.

Lemma format_places_populated (l out : list value) :
  format_places l = Ret out -> forallb (has_keys city_keys) out = true.
Proof.
  revert out; induction l as [|v l IH]; intros out; cbn [format_places].
  - intros H; inversion H; reflexivity.
  - destruct (is_dict v) eqn:E.
    + destruct v as [| | | | | |d]; try discriminate.
      rewrite format_place_dict. cbn [bind].
      destruct (format_places l) as [ps|e]; [|discriminate].
      intros H; inversion H; subst. cbn [forallb].
      rewrite (IH ps eq_refl), andb_true_r.
      unfold has_keys, city_keys. cbn -[pystr_eqb u].
      cbn. reflexivity.
    + rewrite (format_place_not_dict v E). discriminate.
Qed.

Lemma format_places_map (l : list value) :
  Forall (fun v => is_dict v = true) l ->
  format_places l = Ret (map formatted_place l).
Proof.
  induction 1 as [|v l Hv _ IH]; [reflexivity|].
  destruct v as [| | | | | |d]; try discriminate.
  cbn [format_places]. rewrite format_place_dict, IH. reflexivity.
Qed.

Lemma formatted_lookup (d : list (pystr * value)) (k : pystr) :
  In k city_keys ->
  dict_lookup (map (fun k => (k, field_or_default d k)) city_keys) k
  = Some (field_or_default d k).
Proof.
  unfold city_keys. cbn [In].
  intros H; repeat (destruct H as [<- | H]; [reflexivity|]); destruct H.
Qed.

(** C10. On a list whose elements are all mappings,
    [format_city_suggestions] returns a list of the same length in the same
    order; the element at each position has exactly the nine keys place,
    reason, weather_suitability, travel_cost_estimate, accommodation_range,
    safety_rating, accessibility, permit_required, photos, each holding
    the source element's value for that key or the default: no other key of
    the source element is carried over. *)
Theorem format_city_suggestions_on_mappings (l : list value) :
  Forall (fun v => is_dict v = true) l ->
  exists out,
    format_city_suggestions (VList l) = Ret (VList out)
    /\ List.length out = List.length l
    /\ forall n d, nth_error l n = Some (VDict d) ->
         exists r, nth_error out n = Some (VDict r)
                   /\ dict_keys r = city_keys
                   /\ forall k, In k city_keys ->
                        dict_lookup r k = Some (field_or_default d k).
Proof.
  intros Hl. exists (map formatted_place l). repeat split.
  - unfold format_city_suggestions. cbn [is_list py_iter bind].
    rewrite (format_places_map l Hl). reflexivity.
  - apply length_map.
  - intros n d Hn. eexists. split; [|split].
    + rewrite nth_error_map, Hn. reflexivity.
    + unfold dict_keys. rewrite map_map. apply map_id.
    + apply formatted_lookup.
Qed.

Lemma format_city_suggestions_on_mappings_witness :
  exists out,
    format_city_suggestions
      (VList [ VDict [ (u "place", VStr (u "Hampi")); (u "rank", VInt 1) ];
               VDict [] ])
    = Ret (VList out)
    /\ List.length out = 2%nat.
Proof.
  destruct (format_city_suggestions_on_mappings
              [ VDict [ (u "place", VStr (u "Hampi")); (u "rank", VInt 1) ];
                VDict [] ])
    as (out & H & Hlen & _).
  - repeat constructor.
  - exists out. split; [exact H | exact Hlen].
Defined.

Example format_city_suggestions_sample :
  format_city_suggestions
    (VStr (uq "Here you go: ```json [{'place':'Hampi','rank':1}] ```"))
  = Ret (VList [ VDict [ (u "place", VStr (u "Hampi"));
                         (u "reason", VStr (u "No reason provided."));
                         (u "weather_suitability", VStr em_dash);
                         (u "travel_cost_estimate", VDict []);
                         (u "accommodation_range", VStr em_dash);
                         (u "safety_rating", VStr em_dash);
                         (u "accessibility", VStr em_dash);
                         (u "permit_required", VStr em_dash);
                         (u "photos", VList []) ] ]).
Proof. vm_compute. reflexivity. Qed.

(** C5, at a text the generator can return: a JSON array of place names.
    The loop calls [get] on the first name and the [AttributeError] leaves
    the function; nothing is dropped and no list is returned.  The same
    happens for a list that holds one element that is no mapping, and for
    a single JSON object, whose keys the loop visits. *)
Theorem format_city_suggestions_raises_on_names :
  format_city_suggestions (VStr (uq "['Hampi', 'Goa']")) = Raise AttributeError
  /\ format_city_suggestions
       (VList [ VDict [ (u "place", VStr (u "Hampi")) ]; VStr (u "Goa") ])
     = Raise AttributeError
  /\ format_city_suggestions (VStr (uq "{'place': 'Hampi'}"))
     = Raise AttributeError.
Proof. repeat split; vm_compute; reflexivity. Qed.

(* ================================================================== *)
(** ** The normalizers and their schemas *)

Lemma normalize_passthrough (k : normalizer) :
  In k passthrough_normalizers -> normalize k = loads_or_empty.
Proof.
  unfold passthrough_normalizers. cbn [In].
  intros H; repeat (destruct H as [<- | H]; [reflexivity|]); destruct H.
Qed.

Lemma list_field_dict (d : list (pystr * value)) (k : pystr) :
  exists l, list_field (VDict d) k = Ret (VList l).
Proof.
  unfold list_field. cbn [py_get bind].
  destruct (dict_lookup d k) as [v|]; [|exists []; reflexivity].
  destruct v; cbn [is_list]; eauto.
Qed.

Lemma format_local_expertise_data (d : list (pystr * value)) :
  exists a c,
    (top_attractions <- list_field (VDict d) (u "top_attractions") ;;
     local_cuisine <- list_field (VDict d) (u "local_cuisine") ;;
     Ret (VDict [ (u "top_attractions", top_attractions);
                  (u "local_cuisine", local_cuisine) ]))
    = Ret (VDict [ (u "top_attractions", VList a);
                   (u "local_cuisine", VList c) ]).
Proof.
  destruct (list_field_dict d (u "top_attractions")) as (a & ->).
  destruct (list_field_dict d (u "local_cuisine")) as (c & ->).
  exists a, c. reflexivity.
Qed.

Lemma format_local_expertise_dict (d : list (pystr * value)) :
  exists a c,
    format_local_expertise (VDict d)
    = Ret (VDict [ (u "top_attractions", VList a);
                   (u "local_cuisine", VList c) ]).
Proof.
  destruct d as [|kv d].
  - exists [], []. reflexivity.
  - exact (format_local_expertise_data (kv :: d)).
Qed.

Lemma format_city_suggestions_populated (x v : value) :
  format_city_suggestions x = Ret v ->
  exists out, v = VList out /\ forallb (has_keys city_keys) out = true.
Proof.
  unfold format_city_suggestions.
  destruct (if is_list x then _ else _) as [places|e].
  - destruct (py_iter places) as [items|e]; [|discriminate]. cbn [bind].
    destruct (format_places items) as [out|e] eqn:E; [|discriminate].
    intros H; inversion H; subst. exists out. split; [reflexivity|].
    exact (format_places_populated items out E).
  - intros H; inversion H; subst. exists []. split; reflexivity.
Qed.

(** C4 as it is stated fails: for [None] the safety normalizer returns the
    empty mapping, which has none of the keys of the safety schema. *)
Lemma normalizers_omit_keys :
  normalize SafetyInfo VNone = Ret (VDict [])
  /\ ~ (exists v, normalize SafetyInfo VNone = Ret v
                  /\ fully_populated (documented_keys SafetyInfo) v = true).
Proof.
  split; [reflexivity|].
  intros (v & H & Hk). vm_compute in H. inversion H; subst.
  vm_compute in Hk. discriminate.
Qed.

(** Further inputs on which keys are missing or no record is returned. *)
Example normalizers_on_poor_input :
  format_local_expertise (VStr (u "no data, sorry")) = Ret (VDict [])
  /\ format_local_expertise (VStr (uq "[]")) = Raise AttributeError
  /\ format_safety_info (VDict [ (u "overall_risk_level", VStr (u "Low")) ])
     = Ret (VDict [])
  /\ format_packing_list (VStr (uq "{'season': 'Winter'}"))
     = Ret (VDict [ (u "season", VStr (u "Winter")) ])
  /\ format_trip_schedule (VStr (u "no data, sorry")) = Ret invalid_json.
Proof. repeat split; vm_compute; reflexivity. Qed.

(** C4, amended.  [format_city_suggestions], whenever it returns, returns
    a list whose every element has all nine documented keys, an absent
    field replaced by its default, and returns the empty list for [{}],
    [[]] and [None].  [format_local_expertise] returns, for every mapping
    and for [{}], [[]] and [None], a record with both [top_attractions]
    and [local_cuisine], each a list.  [format_trip_schedule] always
    returns and gives a mapping back unchanged.  The six other normalizers
    always return: the decoded JSON value as it is, with no key added, and
    the empty mapping for [{}], [[]], [None] and text that does not
    decode. *)
Theorem normalizers_amended (x : value) :
  (forall v, format_city_suggestions x = Ret v ->
     exists out, v = VList out /\ forallb (has_keys city_keys) out = true)
  /\ (forall d, format_place (VDict d)
                = Ret (VDict (map (fun k => (k, field_or_default d k)) city_keys)))
  /\ (format_city_suggestions (VDict []) = Ret (VList [])
      /\ format_city_suggestions (VList []) = Ret (VList [])
      /\ format_city_suggestions VNone = Ret (VList []))
  /\ (forall d, exists a c,
        format_local_expertise (VDict d)
        = Ret (VDict [ (u "top_attractions", VList a);
                       (u "local_cuisine", VList c) ]))
  /\ (forall y, In y [VDict []; VList []; VNone] ->
        format_local_expertise y
        = Ret (VDict [ (u "top_attractions", VList []);
                       (u "local_cuisine", VList []) ]))
  /\ ((exists v, format_trip_schedule x = Ret v)
      /\ forall d, format_trip_schedule (VDict d) = Ret (VDict d))
  /\ (forall k, In k passthrough_normalizers ->
        (exists v, normalize k x = Ret v)
        /\ (forall y, In y [VDict []; VList []; VNone] ->
              normalize k y = Ret (VDict []))
        /\ (forall s e,
              json_loads (py_or (_extract_json_in_backticks (VStr s)) (VStr s))
              = Raise e ->
              normalize k (VStr s) = Ret (VDict []))
        /\ (forall s v,
              json_loads (py_or (_extract_json_in_backticks (VStr s)) (VStr s))
              = Ret v ->
              normalize k (VStr s) = Ret v)).
Proof.
  split; [apply format_city_suggestions_populated|].
  split; [apply format_place_dict|].
  split; [repeat split; reflexivity|].
  split.
  { apply format_local_expertise_dict. }
  split.
  { cbn [In]. intros y [<- | [<- | [<- | []]]]; reflexivity. }
  split.
  { split.
    - unfold format_trip_schedule. destruct (is_dict x); eauto.
    - reflexivity. }
  intros k Hk. rewrite (normalize_passthrough k Hk).
  split; [unfold loads_or_empty; eauto|].
  split.
  { cbn [In]. intros y [<- | [<- | [<- | []]]]; reflexivity. }
  split.
  - intros s e H. unfold loads_or_empty. rewrite H. reflexivity.
  - intros s v H. unfold loads_or_empty. rewrite H. reflexivity.
Qed.

Lemma normalizers_amended_witness :
  exists v, normalize Reviews (VStr (u "no data, sorry")) = Ret v.
Proof.
  destruct (proj2 (proj2 (proj2 (proj2 (proj2 (proj2
              (normalizers_amended (VStr (u "no data, sorry"))))))))
              Reviews)
    as ((v & H) & _).
  - simpl. tauto.
  - exists v. exact H.
Defined.

(* ================================================================== *)
(** ** Live weather in the city-selection stage *)

(** What [get_current_weather] can return: [None], or the four readings. *)
Lemma get_current_weather_shape (w : World) (city : value) :
  get_current_weather w city = VNone
  \/ exists t d h s,
       get_current_weather w city
       = VDict [ (u "temperature", t); (u "description", d);
                 (u "humidity", h); (u "wind_speed", s) ].
Proof.
  unfold get_current_weather.
  destruct (api_key_set w); cbn [negb]; [|left; reflexivity].
  destruct (weather_service w city) as [data|e]; [|left; reflexivity].
  cbn [bind].
  destruct (py_getitem data (u "main")) as [main|e]; [|left; reflexivity].
  cbn [bind].
  destruct (py_getitem main (u "temp")) as [t|e]; [|left; reflexivity].
  cbn [bind].
  destruct (py_getitem data (u "weather")) as [ws|e]; [|left; reflexivity].
  cbn [bind].
  destruct (py_getitem0 ws) as [w0|e]; [|left; reflexivity].
  cbn [bind].
  destruct (py_getitem w0 (u "description")) as [d|e]; [|left; reflexivity].
  cbn [bind].
  destruct (py_getitem main (u "humidity")) as [h|e]; [|left; reflexivity].
  cbn [bind].
  destruct (py_getitem data (u "wind")) as [wind|e]; [|left; reflexivity].
  cbn [bind].
  destruct (py_getitem wind (u "speed")) as [sp|e]; [|left; reflexivity].
  right. exists t, d, h, sp. reflexivity.
Qed.

Lemma format_places_formatted (l out : list value) :
  format_places l = Ret out -> Forall is_formatted out.
Proof.
  revert out; induction l as [|v l IH]; intros out; cbn [format_places].
  - intros H; inversion H; constructor.
  - destruct (is_dict v) eqn:E.
    + destruct v as [| | | | | |d]; try discriminate.
      rewrite format_place_dict. cbn [bind].
      destruct (format_places l) as [ps|e]; [|discriminate].
      intros H; inversion H; subst. constructor; [exists d; reflexivity|].
      apply IH; reflexivity.
    + rewrite (format_place_not_dict v E). discriminate.
Qed.

Lemma format_city_suggestions_formatted (x : value) (places : list value) :
  format_city_suggestions x = Ret (VList places) -> Forall is_formatted places.
Proof.
  unfold format_city_suggestions.
  destruct (if is_list x then _ else _) as [parsed|e].
  - destruct (py_iter parsed) as [items|e]; [|discriminate]. cbn [bind].
    destruct (format_places items) as [out|e] eqn:E; [|discriminate].
    intros H; inversion H; subst. exact (format_places_formatted items _ E).
  - intros H; inversion H; constructor.
Qed.

Lemma attach_weather_formatted (w : World) (p : value) :
  is_formatted p ->
  exists p', attach_weather w p = Ret p' /\ weather_slot w p p'.
Proof.
  intros (d & ->). unfold attach_weather.
  set (rec := map (fun k => (k, field_or_default d k)) city_keys).
  assert (Hp : dict_lookup rec (u "place") = Some (field_or_default d (u "place")))
    by reflexivity.
  assert (Hw : dict_lookup rec k_weather = None) by reflexivity.
  cbn [py_get]. rewrite Hp. cbn [bind].
  destruct (truthy (field_or_default d (u "place"))) eqn:Ht.
  - destruct (get_current_weather_shape w (field_or_default d (u "place")))
      as [E | (t & ds & h & s & E)]; rewrite E; cbn [truthy py_setitem].
    + eexists. split; [reflexivity|].
      exists rec, (field_or_default d (u "place")).
      split; [reflexivity|]. split; [exact Hp|]. split; [exact Hw|].
      right; left. auto.
    + eexists. split; [reflexivity|].
      exists rec, (field_or_default d (u "place")).
      split; [reflexivity|]. split; [exact Hp|]. split; [exact Hw|].
      right; right. split; [exact Ht|].
      exists t, ds, h, s. auto.
  - eexists. split; [reflexivity|].
    exists rec, (field_or_default d (u "place")).
    split; [reflexivity|]. split; [exact Hp|]. split; [exact Hw|].
    left. auto.
Qed.

Lemma attach_weather_all_formatted (w : World) (places : list value) :
  Forall is_formatted places ->
  exists out, attach_weather_all w places = Ret out
              /\ Forall2 (weather_slot w) places out.
Proof.
  induction 1 as [|p places Hp _ (out & Hout & HF)].
  - exists []. split; [reflexivity | constructor].
  - destruct (attach_weather_formatted w p Hp) as (p' & Hp' & Hs).
    exists (p' :: out). cbn [attach_weather_all]. rewrite Hp', Hout.
    split; [reflexivity | constructor; assumption].
Qed.

Lemma formatted_no_weather (p : value) :
  is_formatted p -> has_key p k_weather = false.
Proof. intros (d & ->). reflexivity. Qed.




(* ================================================================== *)
(** ** The extractor *)

Lemma search_found (at_head : pystr -> option pystr) (s g : pystr) :
  search at_head s = Some g -> exists s', at_head s' = Some g.
Proof.
  induction s as [|c s IH]; cbn [search].
  - destruct (at_head []) eqn:E; [|discriminate].
    intros H; inversion H; subst. eauto.
  - destruct (at_head (c :: s)) eqn:E.
    + intros H; inversion H; subst. eauto.
    + exact IH.
Qed.

Lemma bracket_cases (c : N) (A : Type) (x y z : A) (P : A -> Prop) :
  (c = c_lbrace -> P x) -> (c = c_lbrack -> P y) -> P z ->
  P (if (c =? c_lbrace)%N then x else if (c =? c_lbrack)%N then y else z).
Proof.
  intros Hx Hy Hz.
  destruct (c =? c_lbrace)%N eqn:E1; [apply Hx, N.eqb_eq, E1|].
  destruct (c =? c_lbrack)%N eqn:E2; [apply Hy, N.eqb_eq, E2 | exact Hz].
Qed.

Lemma fenced_at_opens (ic : bool) (s g : pystr) :
  fenced_at ic s = Some g -> opens_structure g.
Proof.
  unfold fenced_at.
  destruct (backticks s) as [r|]; [|discriminate].
  destruct (json_tag ic r) as [r'|]; [|discriminate].
  destruct (skip_spaces r') as [|c body]; [discriminate|].
  apply (bracket_cases c _ _ _ _ (fun o => o = Some g -> opens_structure g)).
  - intros ->. destruct (lazy_span c_rbrace body); [|discriminate].
    intros H; inversion H. exists c_lbrace, p. auto.
  - intros ->. destruct (lazy_span c_rbrack body); [|discriminate].
    intros H; inversion H. exists c_lbrack, p. auto.
  - discriminate.
Qed.

Lemma bare_at_opens (s g : pystr) :
  bare_at s = Some g -> opens_structure g.
Proof.
  unfold bare_at. destruct s as [|c body]; [discriminate|].
  apply (bracket_cases c _ _ _ _ (fun o => o = Some g -> opens_structure g)).
  - intros ->. destruct (greedy_span c_rbrace body); [|discriminate].
    intros H; inversion H. exists c_lbrace, p. auto.
  - intros ->. destruct (greedy_span c_rbrack body); [|discriminate].
    intros H; inversion H. exists c_lbrack, p. auto.
  - discriminate.
Qed.

Lemma search_fenced_opens (ic : bool) (s g : pystr) :
  search_fenced ic s = Some g -> opens_structure g.
Proof.
  intros H. destruct (search_found _ _ _ H) as (s' & Hs').
  exact (fenced_at_opens ic s' g Hs').
Qed.

Lemma search_bare_opens (s g : pystr) :
  search_bare s = Some g -> opens_structure g.
Proof.
  intros H. destruct (search_found _ _ _ H) as (s' & Hs').
  exact (bare_at_opens s' g Hs').
Qed.

(** A text that opens with a brace or a bracket decodes to a mapping or a
    list, if it decodes. *)
Lemma json_loads_structured (g : pystr) (v : value) :
  opens_structure g -> json_loads_str g = Ret v -> structured v = true.
Proof.
  intros (c & r & -> & Hc). unfold json_loads_str.
  destruct Hc as [-> | ->]; cbn [skip_json_ws is_json_ws c_lbrace c_lbrack
                                  N.eqb Pos.eqb orb scan_value c_quote].
  - destruct (skip_json_ws r) as [|c' r'] eqn:E.
    + discriminate.
    + destruct c' as [|p]; [discriminate|].
      repeat (destruct p as [p|p|]; try discriminate).
      * destruct (skip_json_ws r') as [|]; intros H; inversion H; reflexivity.
      * destruct (scan_members _ r' []) as [[d r'']|]; [|discriminate].
        destruct (skip_json_ws r''); intros H; inversion H; reflexivity.
  - assert (Hl : forall o : option (list value * pystr),
               match (match o with
                      | Some (l, r'') => Some (VList l, r'')
                      | None => None
                      end) with
               | Some (v0, r0) =>
                   match skip_json_ws r0 with
                   | [] => Ret v0
                   | _ :: _ => Raise JSONDecodeError
                   end
               | None => Raise JSONDecodeError
               end = Ret v -> structured v = true).
    { intros [[l r'']|]; [|discriminate].
      destruct (skip_json_ws r''); intros H; inversion H; reflexivity. }
    destruct (skip_json_ws r) as [|c' r'] eqn:E.
    + apply Hl.
    + destruct c' as [|p]; [apply Hl|].
      repeat (destruct p as [p|p|]; try apply Hl).
      destruct (skip_json_ws r'); intros H; inversion H; reflexivity.
Qed.

Lemma try_loads_returns (g : pystr) :
  (exists v, json_loads_str g = Ret v /\ try_loads g = Ret (inl v))
  \/ (json_loads_str g = Raise JSONDecodeError /\ try_loads g = Ret (inr tt)).
Proof.
  unfold try_loads. cbn [json_loads]. unfold json_loads_str.
  destruct (scan_value _ _) as [[v r]|]; [|right; split; reflexivity].
  destruct (skip_json_ws r); [left; eauto | right; split; reflexivity].
Qed.

(** [_parse_json_blocks] on a text, by stages. *)
Lemma parse_text_by_stages (s : pystr) :
  _parse_json_blocks (VStr s)
  = Ret match fenced_stage s with
        | Some v => v
        | None => match bare_stage s with
                  | Some v => v
                  | None => VNone
                  end
        end.
Proof.
  unfold _parse_json_blocks, fenced_stage, bare_stage.
  destruct (search_fenced false s) as [g1|].
  - destruct (try_loads_returns g1) as [(v & -> & ->) | (-> & ->)];
      cbn [bind]; [reflexivity|].
    destruct (search_bare s) as [g2|]; [|reflexivity].
    destruct (try_loads_returns g2) as [(v & -> & ->) | (-> & ->)];
      reflexivity.
  - cbn [bind].
    destruct (search_bare s) as [g2|]; [|reflexivity].
    destruct (try_loads_returns g2) as [(v & -> & ->) | (-> & ->)];
      reflexivity.
Qed.

Lemma fenced_stage_structured (s : pystr) (v : value) :
  fenced_stage s = Some v -> structured v = true.
Proof.
  unfold fenced_stage.
  destruct (search_fenced false s) as [g|] eqn:E; [|discriminate].
  destruct (json_loads_str g) as [v'|] eqn:E'; [|discriminate].
  intros H; inversion H; subst.
  exact (json_loads_structured g v (search_fenced_opens _ _ _ E) E').
Qed.

Lemma bare_stage_structured (s : pystr) (v : value) :
  bare_stage s = Some v -> structured v = true.
Proof.
  unfold bare_stage.
  destruct (search_bare s) as [g|] eqn:E; [|discriminate].
  destruct (json_loads_str g) as [v'|] eqn:E'; [|discriminate].
  intros H; inversion H; subst.
  exact (json_loads_structured g v (search_bare_opens _ _ E) E').
Qed.

Lemma parse_structured_unchanged (v : value) :
  structured v = true -> _parse_json_blocks v = Ret v.
Proof. destruct v; try discriminate; reflexivity. Qed.

(** What the extractor returns is [None] or structured. *)
Lemma parse_result (x : value) :
  exists v, _parse_json_blocks x = Ret v
            /\ (v = VNone \/ structured v = true).
Proof.
  destruct x as [| b | z | f | s | l | d];
    try (exists VNone; split; [reflexivity | left; reflexivity]).
  - rewrite parse_text_by_stages. eexists. split; [reflexivity|].
    destruct (fenced_stage s) as [v|] eqn:E1;
      [right; exact (fenced_stage_structured s v E1)|].
    destruct (bare_stage s) as [v|] eqn:E2;
      [right; exact (bare_stage_structured s v E2) | left; reflexivity].
  - exists (VList l). split; [reflexivity | right; reflexivity].
  - exists (VDict d). split; [reflexivity | right; reflexivity].
Qed.



(** C7. The extractor returns an array or an object it is given
    unchanged, and applying it to its own result changes nothing:
    [extract(extract(x)) = extract(x)] for every payload. *)
Theorem extract_idempotent (x : value) :
  (forall l, _parse_json_blocks (VList l) = Ret (VList l))
  /\ (forall d, _parse_json_blocks (VDict d) = Ret (VDict d))
  /\ (y <- _parse_json_blocks x ;; _parse_json_blocks y) = _parse_json_blocks x.
Proof.
  split; [reflexivity|]. split; [reflexivity|].
  destruct (parse_result x) as (v & -> & [-> | Hv]); cbn [bind].
  - reflexivity.
  - exact (parse_structured_unchanged v Hv).
Qed.

(** The scenario of the specification: commentary, then a fenced array. *)
Example extract_scenario :
  _parse_json_blocks
    (VStr (u "Sure! Here" ++ [39%N] ++ u "s your data: ```json" ++ [10%N]
           ++ uq "[{'place':'Hampi'}]" ++ [10%N] ++ u "```"))
  = Ret (VList [ VDict [ (u "place", VStr (u "Hampi")) ] ]).
Proof. vm_compute. reflexivity. Qed.

(* ================================================================== *)
(** ** Binary64: what rounding does to a positive mantissa *)

Lemma digits2_pos_size (p : positive) : digits2_pos p = Pos.size p.
Proof. induction p; simpl; congruence. Qed.

Lemma digits_bounds (p : positive) :
  2 ^ (Zpos (digits2_pos p) - 1) <= Zpos p < 2 ^ Zpos (digits2_pos p).
Proof.
  rewrite digits2_pos_size. split.
  - pose proof (Pos.size_le p) as H.
    apply Pos2Z.pos_le_pos in H.
    rewrite Pos2Z.inj_pow in H. cbn [Z.mul] in H.
    replace (Zpos (Pos.size p)) with (Zpos (Pos.size p) - 1 + 1) in H by lia.
    rewrite Z.pow_add_r in H by lia. change (2 ^ 1) with 2 in H. lia.
  - pose proof (Pos.size_gt p) as H.
    apply Pos2Z.pos_lt_pos in H. rewrite Pos2Z.inj_pow in H. exact H.
Qed.

Lemma digits_unique (p : positive) (n : Z) :
  2 ^ (n - 1) <= Zpos p < 2 ^ n -> Zpos (digits2_pos p) = n.
Proof.
  intros [Hlo Hhi]. pose proof (digits_bounds p) as [Dlo Dhi].
  assert (0 < n).
  { destruct (Z.ltb_spec 0 n); auto.
    assert (2 ^ n <= 2 ^ 0) by (apply Z.pow_le_mono_r; lia).
    change (2 ^ 0) with 1 in *. lia. }
  destruct (Z.lt_trichotomy (Zpos (digits2_pos p)) n) as [L | [E | G]]; auto.
  - assert (2 ^ Zpos (digits2_pos p) <= 2 ^ (n - 1))
      by (apply Z.pow_le_mono_r; lia). lia.
  - assert (2 ^ n <= 2 ^ (Zpos (digits2_pos p) - 1))
      by (apply Z.pow_le_mono_r; lia). lia.
Qed.

Lemma iter_pos_nat (A : Type) (f : A -> A) (p : positive) (x : A) :
  iter_pos f p x = Nat.iter (Pos.to_nat p) f x.
Proof.
  revert x; induction p as [p IH | p IH |]; intros x; cbn [iter_pos].
  - rewrite !IH, Pos2Nat.inj_xI.
    replace (S (2 * Pos.to_nat p)) with (Pos.to_nat p + (Pos.to_nat p + 1))%nat by lia.
    rewrite !Nat.iter_add. reflexivity.
  - rewrite !IH, Pos2Nat.inj_xO.
    replace (2 * Pos.to_nat p)%nat with (Pos.to_nat p + Pos.to_nat p)%nat by lia.
    rewrite Nat.iter_add. reflexivity.
  - reflexivity.
Qed.

Lemma shr_1_nonneg (m : Z) (r s : bool) :
  0 <= m ->
  shr_1 (Build_shr_record m r s) = Build_shr_record (m / 2) (Z.odd m) (r || s).
Proof.
  intros Hm. rewrite <- Z.div2_div.
  destruct m as [|p|p]; [reflexivity | | lia].
  destruct p; reflexivity.
Qed.

(** The record after [k + 1] one-bit shifts of [m]. *)
Lemma shr_iter (m : Z) (k : nat) :
  0 <= m ->
  Nat.iter (S k) shr_1 (Build_shr_record m false false)
  = Build_shr_record (m / 2 ^ Z.of_nat (S k))
                     (Z.odd (m / 2 ^ Z.of_nat k))
                     (negb (m mod 2 ^ Z.of_nat k =? 0)).
Proof.
  intros Hm. induction k as [|k IH].
  - cbn [Nat.iter]. rewrite shr_1_nonneg by assumption.
    change (2 ^ Z.of_nat 1) with 2. change (2 ^ Z.of_nat 0) with 1.
    rewrite Z.div_1_r, Z.mod_1_r. reflexivity.
  - rewrite Nat.iter_succ, IH.
    assert (Hp : 0 < 2 ^ Z.of_nat k) by (apply Z.pow_pos_nonneg; lia).
    assert (Hq : 0 <= m / 2 ^ Z.of_nat (S k))
      by (apply Z.div_pos; [lia | apply Z.pow_pos_nonneg; lia]).
    rewrite shr_1_nonneg by assumption.
    assert (E1 : 2 ^ Z.of_nat (S (S k)) = 2 ^ Z.of_nat (S k) * 2)
      by (rewrite (Nat2Z.inj_succ (S k)), Z.pow_succ_r by lia; lia).
    assert (E2 : 2 ^ Z.of_nat (S k) = 2 ^ Z.of_nat k * 2)
      by (rewrite (Nat2Z.inj_succ k), Z.pow_succ_r by lia; lia).
    f_equal.
    + rewrite E1, Z.div_div by lia. reflexivity.
    + (* sticky bit *)
      rewrite E2 at 1.
      rewrite Z.rem_mul_r by lia.
      set (a := m mod 2 ^ Z.of_nat k). set (b := m / 2 ^ Z.of_nat k).
      assert (Ha : 0 <= a < 2 ^ Z.of_nat k) by (apply Z.mod_pos_bound; lia).
      assert (Hb : b mod 2 = if Z.odd b then 1 else 0).
      { rewrite Zmod_odd. reflexivity. }
      rewrite Hb.
      destruct (Z.odd b); destruct (Z.eqb_spec a 0);
        match goal with
        | |- context [?x =? 0] => destruct (Z.eqb_spec x 0)
        end; cbn [orb negb]; try reflexivity; exfalso; lia.
Qed.

Lemma rne_cases (m n : Z) :
  (rne m n = m / 2 ^ n /\ m mod 2 ^ n <= 2 ^ (n - 1))
  \/ (rne m n = m / 2 ^ n + 1 /\ 2 ^ (n - 1) <= m mod 2 ^ n).
Proof.
  unfold rne.
  destruct (Z.ltb_spec (m mod 2 ^ n) (2 ^ (n - 1))); [left; split; lia|].
  destruct (Z.eqb_spec (m mod 2 ^ n) (2 ^ (n - 1))); cbn [andb].
  - destruct (Z.even (m / 2 ^ n)); [left | right]; split; lia.
  - right; split; lia.
Qed.

Lemma shr_rne (m e : Z) (n : positive) :
  0 <= m ->
  exists mrs,
    shr (Build_shr_record m false false) e (Zpos n) = (mrs, e + Zpos n)
    /\ round_nearest_even (shr_m mrs) (loc_of_shr_record mrs) = rne m (Zpos n).
Proof.
  intros Hm. cbn [shr]. rewrite iter_pos_nat.
  destruct (Pos.to_nat n) as [|k] eqn:Ek; [lia|].
  rewrite shr_iter by assumption.
  eexists. split; [reflexivity|]. cbn [shr_m].
  assert (En : Z.of_nat (S k) = Zpos n) by lia.
  assert (Ek' : Z.of_nat k = Zpos n - 1) by lia.
  rewrite En, Ek'. unfold rne.
  set (h := 2 ^ (Zpos n - 1)).
  assert (Hh : 0 < h) by (apply Z.pow_pos_nonneg; lia).
  assert (E2 : 2 ^ Zpos n = h * 2).
  { unfold h. replace (Zpos n) with (Z.succ (Zpos n - 1)) at 1 by lia.
    rewrite Z.pow_succ_r by lia. lia. }
  assert (Hr : m mod 2 ^ Zpos n
               = m mod h + h * (if Z.odd (m / h) then 1 else 0)).
  { rewrite E2, Z.rem_mul_r by lia. rewrite (Zmod_odd (m / h)). reflexivity. }
  rewrite Hr. clear Hr.
  set (a := m mod h). set (b := m / h).
  assert (Ha : 0 <= a < h) by (apply Z.mod_pos_bound; lia).
  destruct (Z.odd b); destruct (Z.eqb_spec a 0) as [Ea | Ea];
    cbn [negb loc_of_shr_record round_nearest_even].
  - (* tie *)
    destruct (Z.ltb_spec (a + h * 1) h); [lia|].
    destruct (Z.eqb_spec (a + h * 1) h); [|lia]. cbn [andb].
    destruct (Z.even (m / 2 ^ Zpos n)); reflexivity.
  - destruct (Z.ltb_spec (a + h * 1) h); [lia|].
    destruct (Z.eqb_spec (a + h * 1) h); [lia|]. reflexivity.
  - destruct (Z.ltb_spec (a + h * 0) h); [reflexivity | lia].
  - destruct (Z.ltb_spec (a + h * 0) h); [reflexivity | lia].
Qed.

(** A mantissa of [53 + n] bits, [n > 0], rounded to 53: the result is
    [rne mx n], at exponent [ex + n], or its half one exponent higher when
    rounding carried into a 54th bit. *)
Lemma binary_round_aux_normal (mx : positive) (ex n : Z) :
  Zpos (digits2_pos mx) = 53 + n -> 0 < n ->
  -1074 <= ex + n -> ex + n < 971 ->
  exists m2 e2,
    binary_round_aux 53 1024 false (Zpos mx) ex loc_Exact
    = S754_finite false m2 e2
    /\ ex + n <= e2 <= ex + n + 1
    /\ Zpos m2 * 2 ^ (e2 - (ex + n)) = rne (Zpos mx) n.
Proof.
  intros Hd Hn Hlo Hhi.
  destruct n as [|pn|pn]; try lia.
  unfold binary_round_aux, shr_fexp. cbn [Zdigits2 shr_record_of_loc].
  rewrite Hd. unfold fexp, emin.
  replace (Z.max (53 + Zpos pn + ex - 53) (3 - 1024 - 53) - ex)
    with (Zpos pn) by lia.
  destruct (shr_rne (Zpos mx) ex pn) as (mrs & -> & ->); [lia|].
  pose proof (digits_bounds mx) as Db. rewrite Hd in Db.
  assert (Hp : 0 < 2 ^ Zpos pn) by (apply Z.pow_pos_nonneg; lia).
  assert (Hq : 2 ^ 52 <= Zpos mx / 2 ^ Zpos pn < 2 ^ 53).
  { replace (53 + Zpos pn - 1) with (52 + Zpos pn) in Db by lia.
    rewrite !Z.pow_add_r in Db by lia. split.
    - apply Z.div_le_lower_bound; lia.
    - apply Z.div_lt_upper_bound; lia. }
  destruct (rne_cases (Zpos mx) (Zpos pn)) as [[Er _] | [Er _]].
  - (* rounded down *)
    rewrite Er.
    destruct (Zpos mx / 2 ^ Zpos pn) as [|q|q] eqn:Eq; try lia.
    cbn [Zdigits2]. rewrite (digits_unique q 53) by (cbn; lia).
    replace (Z.max (53 + (ex + Zpos pn) - 53) (3 - 1024 - 53) - (ex + Zpos pn))
      with 0 by lia.
    cbn [shr shr_m].
    replace (ex + Zpos pn <=? 1024 - 53) with true by (symmetry; apply Z.leb_le; lia).
    exists q, (ex + Zpos pn). split; [reflexivity|]. split; [lia|].
    rewrite Z.sub_diag. change (2 ^ 0) with 1. lia.
  - rewrite Er.
    destruct (Zpos mx / 2 ^ Zpos pn + 1) as [|q|q] eqn:Eq; try lia.
    destruct (Z.eq_dec (Zpos q) (2 ^ 53)) as [Ec | Ec].
    + (* carry *)
      inversion Ec as [Ec']. subst q.
      cbn [Zdigits2 digits2_pos Pos.succ].
      replace (Z.max (54 + (ex + Zpos pn) - 53) (3 - 1024 - 53) - (ex + Zpos pn))
        with 1 by lia.
      cbn [shr iter_pos shr_1 shr_m].
      replace (ex + Zpos pn + 1 <=? 1024 - 53) with true
        by (symmetry; apply Z.leb_le; lia).
      eexists _, (ex + Zpos pn + 1). split; [reflexivity|]. split; [lia|].
      replace (ex + Zpos pn + 1 - (ex + Zpos pn)) with 1 by lia. reflexivity.
    + cbn [Zdigits2]. rewrite (digits_unique q 53) by (cbn; cbn in Ec; lia).
      replace (Z.max (53 + (ex + Zpos pn) - 53) (3 - 1024 - 53) - (ex + Zpos pn))
        with 0 by lia.
      cbn [shr shr_m].
      replace (ex + Zpos pn <=? 1024 - 53) with true by (symmetry; apply Z.leb_le; lia).
      exists q, (ex + Zpos pn). split; [reflexivity|]. split; [lia|].
      rewrite Z.sub_diag. change (2 ^ 0) with 1. lia.
Qed.

Lemma pos_iter_xO (p d : positive) :
  Zpos (Pos.iter xO p d) = Zpos p * 2 ^ Zpos d.
Proof.
  induction d as [|d IH] using Pos.peano_ind.
  - cbn [Pos.iter]. rewrite Pos2Z.inj_xO. change (2 ^ 1) with 2. lia.
  - rewrite Pos.iter_succ, Pos2Z.inj_xO, IH, Pos2Z.inj_succ, Z.pow_succ_r by lia.
    lia.
Qed.

(** A canonical 53-bit mantissa goes through rounding unchanged. *)
Lemma binary_round_aux_exact (m : positive) (e : Z) :
  Zpos (digits2_pos m) = 53 -> -1074 <= e <= 971 ->
  binary_round_aux 53 1024 false (Zpos m) e loc_Exact = S754_finite false m e.
Proof.
  intros Hd He.
  unfold binary_round_aux, shr_fexp. cbn [Zdigits2 shr_record_of_loc].
  rewrite Hd. unfold fexp, emin.
  replace (Z.max (53 + e - 53) (3 - 1024 - 53) - e) with 0 by lia.
  cbn [shr shr_m loc_of_shr_record round_nearest_even Zdigits2].
  rewrite Hd.
  replace (Z.max (53 + e - 53) (3 - 1024 - 53) - e) with 0 by lia.
  cbn [shr shr_m].
  replace (e <=? 1024 - 53) with true by (symmetry; apply Z.leb_le; lia).
  reflexivity.
Qed.

(** [float(t)] for [0 < t < 2^53] is [t] itself, its mantissa moved up to
    53 bits. *)
Lemma float_of_int_exact (t : Z) :
  0 < t < 2 ^ 53 ->
  exists m d,
    float_of_int t = Ret (S754_finite false m (- d))
    /\ 0 <= d <= 52
    /\ Zpos m = t * 2 ^ d
    /\ 2 ^ 52 <= Zpos m < 2 ^ 53.
Proof.
  intros Ht. destruct t as [|p|p]; try lia.
  unfold float_of_int, binary_normalize, binary_round, fexp, emin.
  pose proof (digits_bounds p) as Db.
  set (D := Zpos (digits2_pos p)) in *.
  assert (HD : 1 <= D <= 53).
  { split; [unfold D; lia|].
    destruct (Z.leb_spec D 53); auto.
    assert (2 ^ 53 <= 2 ^ (D - 1)) by (apply Z.pow_le_mono_r; lia). lia. }
  replace (Z.max (D + 0 - 53) (3 - 1024 - 53)) with (D - 53) by lia.
  unfold shl_align.
  destruct (D - 53 - 0) as [|d|d] eqn:Ed; try lia.
  - (* already 53 bits *)
    rewrite binary_round_aux_exact by (fold D; lia).
    exists p, 0. split; [reflexivity|].
    replace (D - 1) with 52 in Db by lia. replace D with 53 in Db by lia.
    change (2 ^ 0) with 1. lia.
  - assert (Hm : Zpos (Pos.iter xO p d) = Zpos p * 2 ^ Zpos d)
      by apply pos_iter_xO.
    assert (Hb : 2 ^ 52 <= Zpos (Pos.iter xO p d) < 2 ^ 53).
    { rewrite Hm.
      replace 52 with (D - 1 + Zpos d) by lia.
      replace 53 with (D + Zpos d) by lia.
      rewrite !Z.pow_add_r by lia.
      assert (0 < 2 ^ Zpos d) by (apply Z.pow_pos_nonneg; lia). nia. }
    assert (Hdig : Zpos (digits2_pos (Pos.iter xO p d)) = 53)
      by (apply digits_unique; exact Hb).
    rewrite (binary_round_aux_exact _ _ Hdig) by lia.
    exists (Pos.iter xO p d), (Zpos d). split.
    + replace (D - 53) with (- Zpos d) by lia. reflexivity.
    + split; [lia|]. split; [exact Hm | exact Hb].
Qed.

Lemma mul_digits (a b : positive) :
  2 ^ 52 <= Zpos a < 2 ^ 53 -> 2 ^ 52 <= Zpos b < 2 ^ 53 ->
  exists n, (n = 52 \/ n = 53) /\ Zpos (digits2_pos (a * b)) = 53 + n.
Proof.
  intros Ha Hb.
  assert (Hab : 2 ^ 104 <= Zpos (a * b) < 2 ^ 106).
  { rewrite Pos2Z.inj_mul.
    change (2 ^ 104) with (2 ^ 52 * 2 ^ 52).
    change (2 ^ 106) with (2 ^ 53 * 2 ^ 53). nia. }
  destruct (Z.ltb_spec (Zpos (a * b)) (2 ^ 105)).
  - exists 52. split; [auto|]. apply digits_unique.
    change (2 ^ (53 + 52 - 1)) with (2 ^ 104).
    change (2 ^ (53 + 52)) with (2 ^ 105). lia.
  - exists 53. split; [auto|]. apply digits_unique.
    change (2 ^ (53 + 53 - 1)) with (2 ^ 105).
    change (2 ^ (53 + 53)) with (2 ^ 106). lia.
Qed.

(** [int(c * t)] for a literal [c = mc * 2^ec] below one and
    [0 < t < 2^48]: the product mantissa [mc * t * 2^d] has [53 + n] bits
    and is rounded to 53; the integer part of the result is
    [rne (mc * t * 2^d) n / 2^g], where [2^g * 2^n = 2^-ec * 2^d]. *)
Lemma int_of_product_rne (mc : positive) (ec t : Z) :
  2 ^ 52 <= Zpos mc < 2 ^ 53 -> -57 <= ec <= -54 -> 0 < t < 2 ^ 48 ->
  exists d n g,
    0 <= d /\ 0 < n /\ 0 < g /\ g + n = - ec + d
    /\ 2 ^ (52 + n) <= Zpos mc * t * 2 ^ d < 2 ^ (53 + n)
    /\ int_of_product (S754_finite false mc ec) t
       = Ret (rne (Zpos mc * t * 2 ^ d) n / 2 ^ g).
Proof.
  intros Hmc Hec Ht.
  destruct (float_of_int_exact t) as (m & d & Hf & Hd & Hm & Hmb).
  { change (2 ^ 53) with (2 ^ 48 * 32). lia. }
  assert (Hd5 : 5 <= d).
  { destruct (Z.leb_spec 5 d); auto.
    assert (2 ^ d <= 2 ^ 4) by (apply Z.pow_le_mono_r; lia).
    change (2 ^ 52) with (2 ^ 48 * 2 ^ 4) in Hmb.
    assert (0 < 2 ^ d) by (apply Z.pow_pos_nonneg; lia). nia. }
  destruct (mul_digits mc m Hmc Hmb) as (n & Hn & Hdig).
  destruct (binary_round_aux_normal (mc * m) (ec + - d) n Hdig)
    as (m2 & e2 & Hr & He2 & Hv); try lia.
  exists d, n, (- ec + d - n).
  assert (Hmx : Zpos (mc * m) = Zpos mc * t * 2 ^ d)
    by (rewrite Pos2Z.inj_mul, Hm; lia).
  pose proof (digits_bounds (mc * m)) as Db. rewrite Hdig, Hmx in Db.
  replace (53 + n - 1) with (52 + n) in Db by lia.
  do 4 (split; [lia|]). split; [exact Db|].
  unfold int_of_product. rewrite Hf. cbn [bind SFmul xorb]. rewrite Hr.
  cbn [int_of_float cond_Zopp].
  destruct (Z.leb_spec 0 e2); [lia|].
  rewrite Z.shiftr_div_pow2 by lia. rewrite <- Hmx, <- Hv. f_equal.
  destruct (Z.eq_dec e2 (ec + - d + n)) as [-> | Hne].
  - rewrite Z.sub_diag. change (2 ^ 0) with 1. rewrite Z.mul_1_r.
    f_equal. f_equal. lia.
  - replace (e2 - (ec + - d + n)) with 1 by lia. change (2 ^ 1) with 2.
    replace (- ec + d - n) with (Z.succ (- e2)) by lia.
    rewrite Z.pow_succ_r by lia.
    rewrite (Z.mul_comm (Zpos m2) 2).
    rewrite Z.div_mul_cancel_l; [reflexivity | | lia].
    apply Z.pow_nonzero; lia.
Qed.

(** The integer part of a rounded product against a candidate [k].
    [mc * t * A] is the exact product mantissa, [N = 2 * H] the weight of
    the bits rounded away, [q'] the rounded mantissa, [C * A = G * N] the
    weight of the unit. *)
Section RoundedQuotient.
Variables mc C t A N H G q' : Z.
Hypothesis HA : 0 < A.
Hypothesis HH : 0 < H.
Hypothesis HN : N = 2 * H.
Hypothesis HG : 0 < G.
Hypothesis HCA : C * A = G * N.
Hypothesis Hlo : 2 ^ 52 * N <= mc * t * A.
Hypothesis Hhi : mc * t * A < 2 ^ 53 * N.
Hypothesis Hq :
  (q' = mc * t * A / N /\ (mc * t * A) mod N <= H)
  \/ (q' = mc * t * A / N + 1 /\ H <= (mc * t * A) mod N).

Lemma rounded_le_half : q' * N <= mc * t * A + H.
Proof.
  pose proof (Z.div_mod (mc * t * A) N ltac:(lia)) as E.
  pose proof (Z.mod_pos_bound (mc * t * A) N ltac:(lia)) as B.
  destruct Hq as [[-> Hr] | [-> Hr]]; lia.
Qed.

Lemma rounded_ge_floor : mc * t * A / N <= q'.
Proof. destruct Hq as [[-> _] | [-> _]]; lia. Qed.

Lemma quotient_upper (k : Z) :
  (2 ^ 53 + 1) * (mc * t) < 2 ^ 53 * ((k + 1) * C) -> q' / G <= k.
Proof.
  intros Hk.
  assert (H1 : (2 ^ 53 + 1) * (mc * t) * A < 2 ^ 53 * ((k + 1) * C) * A)
    by (apply Z.mul_lt_mono_pos_r; assumption).
  pose proof rounded_le_half as H2.
  assert (H3 : 2 ^ 53 * (q' * N) < 2 ^ 53 * ((k + 1) * G * N)).
  { replace (2 ^ 53 * ((k + 1) * G * N))
      with (2 ^ 53 * ((k + 1) * C) * A)
      by (rewrite <- !Z.mul_assoc, HCA; reflexivity).
    change (2 ^ 53) with (2 ^ 52 * 2) in *. lia. }
  assert (H4 : q' * N < (k + 1) * G * N)
    by (apply (Z.mul_lt_mono_pos_l (2 ^ 53)); [reflexivity | exact H3]).
  assert (H5 : q' < (k + 1) * G)
    by (apply (Z.mul_lt_mono_pos_r N); [lia | exact H4]).
  assert (q' / G < k + 1); [|lia].
  apply Z.div_lt_upper_bound; lia.
Qed.

Lemma quotient_lower (k : Z) : k * C <= mc * t -> k <= q' / G.
Proof.
  intros Hk.
  assert (H1 : k * C * A <= mc * t * A)
    by (apply Z.mul_le_mono_nonneg_r; lia).
  assert (H2 : N * (k * G) <= mc * t * A).
  { replace (N * (k * G)) with (k * C * A); [exact H1|].
    rewrite <- Z.mul_assoc, HCA. ring. }
  assert (H3 : k * G <= mc * t * A / N)
    by (apply Z.div_le_lower_bound; [lia | exact H2]).
  pose proof rounded_ge_floor.
  apply Z.div_le_lower_bound; lia.
Qed.

(** Just below [k]: closer to [k] than half a unit in the last place, so
    the product rounds up to [k]. *)
Lemma quotient_round_up (k : Z) :
  mc * t < k * C -> 2 ^ 54 * (k * C - mc * t) <= mc * t -> k <= q' / G.
Proof.
  intros Hlt Hnear.
  set (d0 := (k * C - mc * t) * A).
  assert (Hd0 : 0 < d0) by (apply Z.mul_pos_pos; lia).
  assert (H1 : 2 ^ 54 * d0 <= mc * t * A).
  { unfold d0. rewrite Z.mul_assoc. apply Z.mul_le_mono_nonneg_r; lia. }
  assert (H2 : d0 < H).
  { change (2 ^ 54) with (2 ^ 53 * 2) in H1. lia. }
  assert (E : mc * t * A = N * (k * G - 1) + (N - d0)).
  { unfold d0. rewrite Z.mul_sub_distr_r.
    replace (k * C * A) with (k * G * N)
      by (rewrite <- !Z.mul_assoc, HCA; reflexivity). ring. }
  assert (Eq : mc * t * A / N = k * G - 1)
    by (symmetry; apply (Z.div_unique_pos _ _ _ (N - d0)); [lia | exact E]).
  assert (Er : (mc * t * A) mod N = N - d0)
    by (symmetry; apply (Z.mod_unique_pos _ _ (k * G - 1)); [lia | exact E]).
  destruct Hq as [[_ Hr] | [-> _]]; [lia|].
  rewrite Eq. replace (k * G - 1 + 1) with (k * G) by lia.
  rewrite Z.div_mul by lia. lia.
Qed.
End RoundedQuotient.

Lemma product_setup (mc : positive) (ec t : Z) :
  2 ^ 52 <= Zpos mc < 2 ^ 53 -> -57 <= ec <= -54 -> 0 < t < 2 ^ 48 ->
  exists A N H G q',
    0 < A /\ 0 < H /\ N = 2 * H /\ 0 < G
    /\ 2 ^ (- ec) * A = G * N
    /\ 2 ^ 52 * N <= Zpos mc * t * A
    /\ Zpos mc * t * A < 2 ^ 53 * N
    /\ ((q' = Zpos mc * t * A / N /\ (Zpos mc * t * A) mod N <= H)
        \/ (q' = Zpos mc * t * A / N + 1 /\ H <= (Zpos mc * t * A) mod N))
    /\ int_of_product (S754_finite false mc ec) t = Ret (q' / G).
Proof.
  intros Hmc Hec Ht.
  destruct (int_of_product_rne mc ec t Hmc Hec Ht)
    as (d & n & g & Hd & Hn & Hg & Hgn & [Hlo Hhi] & Hr).
  exists (2 ^ d), (2 ^ n), (2 ^ (n - 1)), (2 ^ g),
         (rne (Zpos mc * t * 2 ^ d) n).
  split; [apply Z.pow_pos_nonneg; lia|].
  split; [apply Z.pow_pos_nonneg; lia|].
  split.
  { replace n with (Z.succ (n - 1)) at 1 by lia.
    rewrite Z.pow_succ_r by lia. reflexivity. }
  split; [apply Z.pow_pos_nonneg; lia|].
  split.
  { rewrite <- !Z.pow_add_r by lia. f_equal. lia. }
  rewrite !Z.pow_add_r in Hlo, Hhi by lia.
  split; [exact Hlo|]. split; [exact Hhi|].
  split; [apply rne_cases | exact Hr].
Qed.

Ltac product_facts t :=
  match goal with
  | |- context [int_of_product (S754_finite false ?mc ?ec) t] =>
      destruct (product_setup mc ec t)
        as (A & N & H & G & q & HA & HH & HN & HG & HCA & Hlo & Hhi & Hq & ->);
      [ cbn; lia | lia | assumption | ]
  end.

Ltac floor_facts p t :=
  pose proof (Z.div_mod (p * t) 100 ltac:(lia));
  pose proof (Z.mod_pos_bound (p * t) 100 ltac:(lia));
  change (2 ^ 53) with 9007199254740992;
  change (2 ^ 54) with 18014398509481984;
  change (2 ^ 48) with 281474976710656 in *.

Lemma literal_values :
  lit_0_25 = S754_finite false 4503599627370496 (-54)
  /\ lit_0_35 = S754_finite false 6305039478318694 (-54)
  /\ lit_0_45 = S754_finite false 8106479329266893 (-54)
  /\ lit_0_15 = S754_finite false 5404319552844595 (-55)
  /\ lit_0_05 = S754_finite false 7205759403792794 (-57).
Proof. repeat split; vm_compute; reflexivity. Qed.

(** [int(0.25 * t)], [int(0.45 * t)], [int(0.05 * t)]: the literal is not
    below the fraction, and the product cannot reach the next integer. *)
Lemma int_quarter (t : Z) :
  0 < t < 2 ^ 48 -> int_of_product lit_0_25 t = Ret (25 * t / 100).
Proof.
  intros Ht. rewrite (proj1 literal_values).
  product_facts t. f_equal.
  change (2 ^ (- -54)) with 18014398509481984 in HCA.
  apply Z.le_antisymm.
  - eapply (quotient_upper _ _ _ A N H G q); try eassumption.
    floor_facts 25 t. lia.
  - eapply (quotient_lower _ _ _ A N H G q); try eassumption.
    floor_facts 25 t. lia.
Qed.

Lemma int_0_45 (t : Z) :
  0 < t < 2 ^ 48 -> int_of_product lit_0_45 t = Ret (45 * t / 100).
Proof.
  intros Ht. rewrite (proj1 (proj2 (proj2 literal_values))).
  product_facts t. f_equal.
  change (2 ^ (- -54)) with 18014398509481984 in HCA.
  apply Z.le_antisymm.
  - eapply (quotient_upper _ _ _ A N H G q); try eassumption.
    floor_facts 45 t. lia.
  - eapply (quotient_lower _ _ _ A N H G q); try eassumption.
    floor_facts 45 t. lia.
Qed.

Lemma int_0_05 (t : Z) :
  0 < t < 2 ^ 48 -> int_of_product lit_0_05 t = Ret (5 * t / 100).
Proof.
  intros Ht. rewrite (proj2 (proj2 (proj2 (proj2 literal_values)))).
  product_facts t. f_equal.
  change (2 ^ (- -57)) with 144115188075855872 in HCA.
  apply Z.le_antisymm.
  - eapply (quotient_upper _ _ _ A N H G q); try eassumption.
    floor_facts 5 t. lia.
  - eapply (quotient_lower _ _ _ A N H G q); try eassumption.
    floor_facts 5 t. lia.
Qed.

(** [int(0.15 * t)]: the literal is below 0.15, but a product that should
    be an integer is within half a unit in the last place of it and rounds
    up to it. *)
Lemma int_0_15 (t : Z) :
  0 < t < 2 ^ 48 -> int_of_product lit_0_15 t = Ret (15 * t / 100).
Proof.
  intros Ht. rewrite (proj1 (proj2 (proj2 (proj2 literal_values)))).
  product_facts t. f_equal.
  change (2 ^ (- -55)) with 36028797018963968 in HCA.
  apply Z.le_antisymm.
  - eapply (quotient_upper _ _ _ A N H G q); try eassumption.
    floor_facts 15 t. lia.
  - destruct (Z.le_gt_cases (15 * t / 100 * 36028797018963968)
                            (5404319552844595 * t)) as [Hge | Hlt].
    + eapply (quotient_lower _ _ _ A N H G q); try eassumption.
    + eapply (quotient_round_up _ _ _ A N H G q); try eassumption.
      floor_facts 15 t. lia.
Qed.

(** [int(0.35 * t)]: the literal is below 0.35, and a product that should
    be an integer can round to the double below it: the floor, or one
    less. *)
Lemma int_0_35 (t : Z) :
  0 < t < 2 ^ 48 ->
  exists b, int_of_product lit_0_35 t = Ret b
            /\ 35 * t / 100 - 1 <= b <= 35 * t / 100.
Proof.
  intros Ht. rewrite (proj1 (proj2 literal_values)).
  product_facts t. eexists. split; [reflexivity|].
  change (2 ^ (- -54)) with 18014398509481984 in HCA.
  split.
  - eapply (quotient_lower _ _ _ A N H G q); try eassumption.
    floor_facts 35 t. lia.
  - eapply (quotient_upper _ _ _ A N H G q); try eassumption.
    floor_facts 35 t. lia.
Qed.

(* ================================================================== *)
(** ** Budget: the split of a total *)

(** C2 as it is stated fails twice.  A total of 0 is falsy, so the guard
    of the constructor is false and no ranges are derived.  For a total of
    180 the double product [0.35 * 180] is 62.99999999999999, so the
    upper transport bound and the lower accommodation bound are 62, not
    [floor(0.35 * 180) = 63]; a total of 180000 gives 62999 for 63000. *)
Lemma split_is_not_the_exact_floor :
  derive_budget (Some 0) None = Ret None
  /\ derive_budget (Some 180) None = Ret (Some (code_split 180 62))
  /\ 35 * 180 / 100 = 63
  /\ derive_budget (Some 180) None <> Ret (Some (spec_split 180))
  /\ derive_budget (Some 180000) None = Ret (Some (code_split 180000 62999))
  /\ derive_budget (Some 180000) None <> Ret (Some (spec_split 180000)).
Proof.
  split; [reflexivity|].
  split; [vm_compute; reflexivity|].
  split; [reflexivity|].
  split; [vm_compute; discriminate|].
  split; [vm_compute; reflexivity|].
  vm_compute; discriminate.
Qed.

(** Beyond the range of a double the constructor raises. *)
Example split_overflows :
  derive_budget (Some (2 ^ 1024)) None = Raise OverflowError.
Proof. vm_compute. reflexivity. Qed.

Lemma small_totals (total : Z) :
  0 < total < 10 ->
  exists m, int_of_product lit_0_35 total = Ret m
            /\ 35 * total / 100 - 1 <= m <= 35 * total / 100
            /\ 25 * total / 100 <= m.
Proof.
  intros Ht.
  assert (Hc : total = 1 \/ total = 2 \/ total = 3 \/ total = 4 \/ total = 5
               \/ total = 6 \/ total = 7 \/ total = 8 \/ total = 9) by lia.
  repeat (destruct Hc as [-> | Hc]; [eexists; split;
            [vm_compute; reflexivity | vm_compute; intuition discriminate]|]).
  subst. eexists; split;
    [vm_compute; reflexivity | vm_compute; intuition discriminate].
Qed.

(** C2, amended.  For every total with [0 < total < 2^48] supplied with no
    usable category ranges (absent, empty, or every value null) the
    derivation produces exactly the four ranges
    transport [[floor(0.25 total), m]], accommodation
    [[m, floor(0.45 total)]], food [[floor(0.15 total), floor(0.25 total)]],
    entertainment [[floor(0.05 total), floor(0.15 total)]], where [m], the
    value of [int(0.35 * total)] in double arithmetic, is
    [floor(0.35 total)] or one less; every range has min <= max and every
    value is >= 0; a total of 60000 yields transport [15000, 21000],
    accommodation [21000, 27000], food [9000, 15000], entertainment
    [3000, 9000]. *)
Theorem split_budget_amended (total : Z) (existing : option ranges) :
  ranges_unusable existing = true -> 0 < total < 2 ^ 48 ->
  (exists m,
     derive_budget (Some total) existing = Ret (Some (code_split total m))
     /\ 35 * total / 100 - 1 <= m <= 35 * total / 100
     /\ 0 <= 25 * total / 100 <= m
     /\ 0 <= m <= 45 * total / 100
     /\ 0 <= 15 * total / 100 <= 25 * total / 100
     /\ 0 <= 5 * total / 100 <= 15 * total / 100)
  /\ (total = 60000 ->
      derive_budget (Some total) existing
      = Ret (Some [ (u "transport", Some (15000, 21000));
                    (u "accommodation", Some (21000, 27000));
                    (u "food", Some (9000, 15000));
                    (u "entertainment", Some (3000, 9000)) ])).
Proof.
  intros Hu Ht.
  assert (Hm : exists m, int_of_product lit_0_35 total = Ret m
                         /\ 35 * total / 100 - 1 <= m <= 35 * total / 100
                         /\ 25 * total / 100 <= m).
  { destruct (Z.lt_ge_cases total 10) as [Hs | Hl].
    - apply small_totals. lia.
    - destruct (int_0_35 total Ht) as (m & Hm & Hb).
      exists m. split; [exact Hm|]. split; [exact Hb|].
      pose proof (Z.div_mod (35 * total) 100 ltac:(lia)).
      pose proof (Z.mod_pos_bound (35 * total) 100 ltac:(lia)).
      pose proof (Z.div_mod (25 * total) 100 ltac:(lia)).
      pose proof (Z.mod_pos_bound (25 * total) 100 ltac:(lia)). lia. }
  destruct Hm as (m & Hm & Hb & Hlo).
  assert (Hd : derive_budget (Some total) existing
               = Ret (Some (code_split total m))).
  { unfold derive_budget, Tripcrew_init.
    cbn [budget_range total_budget total_given]. rewrite Hu.
    replace (total =? 0) with false by (symmetry; apply Z.eqb_neq; lia).
    cbn [negb andb]. unfold split_budget.
    rewrite (int_quarter total Ht), Hm, (int_0_45 total Ht),
      (int_0_15 total Ht), (int_0_05 total Ht).
    reflexivity. }
  split.
  - exists m. split; [exact Hd|]. split; [exact Hb|].
    pose proof (Z.div_mod (5 * total) 100 ltac:(lia)).
    pose proof (Z.mod_pos_bound (5 * total) 100 ltac:(lia)).
    pose proof (Z.div_mod (15 * total) 100 ltac:(lia)).
    pose proof (Z.mod_pos_bound (15 * total) 100 ltac:(lia)).
    pose proof (Z.div_mod (25 * total) 100 ltac:(lia)).
    pose proof (Z.mod_pos_bound (25 * total) 100 ltac:(lia)).
    pose proof (Z.div_mod (35 * total) 100 ltac:(lia)).
    pose proof (Z.mod_pos_bound (35 * total) 100 ltac:(lia)).
    pose proof (Z.div_mod (45 * total) 100 ltac:(lia)).
    pose proof (Z.mod_pos_bound (45 * total) 100 ltac:(lia)).
    lia.
  - intros ->. rewrite Hd. f_equal. f_equal.
    assert (E : int_of_product lit_0_35 60000 = Ret 21000)
      by (vm_compute; reflexivity).
    rewrite E in Hm. inversion Hm; subst. reflexivity.
Qed.

Lemma split_budget_amended_witness :
  derive_budget (Some 60000) None
  = Ret (Some [ (u "transport", Some (15000, 21000));
                (u "accommodation", Some (21000, 27000));
                (u "food", Some (9000, 15000));
                (u "entertainment", Some (3000, 9000)) ]).
Proof.
  apply (proj2 (split_budget_amended 60000 None eq_refl
                  (conj eq_refl eq_refl))).
  reflexivity.
Defined.
(* ================================================================== *)
(** ** Mappings: lookup after update *)

Lemma dict_lookup_set_same (d : list (pystr * value)) (k : pystr) (v : value) :
  dict_lookup (dict_set d k v) k = Some v.
Proof.
  induction d as [|[k' v'] d IH]; cbn [dict_set dict_lookup].
  - rewrite pystr_eqb_refl. reflexivity.
  - destruct (pystr_eqb k' k) eqn:E; cbn [dict_lookup]; rewrite E; auto.
Qed.

Lemma dict_lookup_set_other (d : list (pystr * value)) (k k' : pystr) (v : value) :
  pystr_eqb k k' = false ->
  dict_lookup (dict_set d k v) k' = dict_lookup d k'.
Proof.
  intros Hk. induction d as [|[k0 v0] d IH]; cbn [dict_set dict_lookup].
  - rewrite Hk. reflexivity.
  - destruct (pystr_eqb k0 k) eqn:E; cbn [dict_lookup].
    + apply pystr_eqb_eq in E. subst k0. rewrite Hk. reflexivity.
    + rewrite IH. reflexivity.
Qed.

(* ================================================================== *)
(** ** The destination list: more on [format_city_suggestions] *)

Lemma format_place_formatted (p : value) :
  is_formatted p -> format_place p = Ret p.
Proof.
  intros (d & ->). rewrite format_place_dict.
  apply f_equal, f_equal, map_ext_in. intros k Hk. apply f_equal.
  unfold field_or_default at 1. rewrite (formatted_lookup d k Hk). reflexivity.
Qed.

Lemma format_places_formatted_id (l : list value) :
  Forall is_formatted l -> format_places l = Ret l.
Proof.
  induction 1 as [|p l Hp _ IH]; [reflexivity|].
  cbn [format_places]. rewrite (format_place_formatted p Hp), IH. reflexivity.
Qed.

Lemma format_city_suggestions_result (x v : value) :
  format_city_suggestions x = Ret v ->
  exists places, v = VList places /\ Forall is_formatted places.
Proof.
  intros H. destruct (format_city_suggestions_populated x v H) as (out & -> & _).
  exists out. split; [reflexivity|].
  exact (format_city_suggestions_formatted x out H).
Qed.

(** X1. What [format_city_suggestions] returns is a fixed point of it:
    formatting a formatted list again gives the same list. *)
Theorem format_city_suggestions_idempotent (x v : value) :
  format_city_suggestions x = Ret v -> format_city_suggestions v = Ret v.
Proof.
  intros H. destruct (format_city_suggestions_result x v H) as (places & -> & Hf).
  unfold format_city_suggestions. cbn [is_list py_iter bind].
  rewrite (format_places_formatted_id places Hf). reflexivity.
Qed.

Lemma format_city_suggestions_idempotent_witness :
  format_city_suggestions
    (VList [ VDict (map (fun k => (k, field_or_default [] k)) city_keys) ])
  = Ret (VList [ VDict (map (fun k => (k, field_or_default [] k)) city_keys) ]).
Proof.
  apply (format_city_suggestions_idempotent (VList [VDict []])). reflexivity.
Defined.

Lemma format_places_cases (l : list value) :
  format_places l
  = if forallb is_dict l then Ret (map formatted_place l)
    else Raise AttributeError.
Proof.
  induction l as [|v l IH]; [reflexivity|].
  cbn [format_places forallb map]. destruct (is_dict v) eqn:E.
  - destruct v as [| | | | | |d]; try discriminate.
    rewrite format_place_dict, IH. cbn [bind andb formatted_place].
    destruct (forallb is_dict l); reflexivity.
  - rewrite (format_place_not_dict v E). reflexivity.
Qed.

(** X2. On a list, [format_city_suggestions] returns the list of formatted
    records when every element is a mapping, and raises [AttributeError]
    as soon as one element is not: there is no other outcome. *)
Theorem format_city_suggestions_on_list (l : list value) :
  format_city_suggestions (VList l)
  = if forallb is_dict l then Ret (VList (map formatted_place l))
    else Raise AttributeError.
Proof.
  unfold format_city_suggestions. cbn [is_list py_iter bind].
  rewrite format_places_cases. destruct (forallb is_dict l); reflexivity.
Qed.

(** X3. A value that is neither a list nor a text, a single place record
    among them, makes [format_city_suggestions] return the empty list. *)
Theorem format_city_suggestions_other_values (x : value) :
  is_list x = false -> is_str x = false ->
  format_city_suggestions x = Ret (VList []).
Proof.
  destruct x; try discriminate; reflexivity.
Qed.

Lemma format_city_suggestions_other_values_witness :
  format_city_suggestions (VDict [ (u "place", VStr (u "Hampi")) ])
  = Ret (VList []).
Proof.
  apply format_city_suggestions_other_values; reflexivity.
Defined.

(* ================================================================== *)
(** ** The other formatters *)

Lemma extract_not_text (x : value) :
  is_str x = false -> _extract_json_in_backticks x = VNone.
Proof. destruct x; try discriminate; reflexivity. Qed.

Lemma json_loads_not_text (x : value) :
  is_str x = false -> json_loads x = Raise TypeError.
Proof. destruct x; try discriminate; reflexivity. Qed.

(** X4. The six formatters of the later stages return the empty mapping
    for every value that is not text: a mapping that is already decoded is
    not passed through but lost. *)
Theorem later_formatters_lose_structure (k : normalizer) (x : value) :
  In k passthrough_normalizers -> is_str x = false ->
  normalize k x = Ret (VDict []).
Proof.
  intros Hk Hx. rewrite (normalize_passthrough k Hk).
  unfold loads_or_empty, py_or. rewrite (extract_not_text x Hx).
  cbn [truthy]. rewrite (json_loads_not_text x Hx). reflexivity.
Qed.

Lemma later_formatters_lose_structure_witness :
  format_safety_info (VDict [ (u "overall_risk_level", VStr (u "Low")) ])
  = Ret (VDict []).
Proof.
  apply (later_formatters_lose_structure SafetyInfo
           (VDict [ (u "overall_risk_level", VStr (u "Low")) ])).
  - simpl. tauto.
  - reflexivity.
Defined.

Lemma list_field_not_dict (data : value) (k : pystr) :
  is_dict data = false -> list_field data k = Raise AttributeError.
Proof. destruct data; try discriminate; reflexivity. Qed.

Lemma format_local_expertise_cases (x : value) :
  format_local_expertise x = Ret (VDict [])
  \/ (exists a c,
        format_local_expertise x
        = Ret (VDict [ (u "top_attractions", VList a);
                       (u "local_cuisine", VList c) ]))
  \/ format_local_expertise x = Raise AttributeError.
Proof.
  unfold format_local_expertise.
  destruct (if is_str _ then _ else _) as [data|e]; [|left; reflexivity].
  destruct (is_dict data) eqn:E.
  - destruct data as [| | | | | |d]; try discriminate.
    right; left. apply format_local_expertise_data.
  - right; right. rewrite (list_field_not_dict data _ E). reflexivity.
Qed.

(** X5. [format_local_expertise] has three outcomes and no other: the
    empty mapping (the text did not decode), a record with exactly
    [top_attractions] and [local_cuisine], each a list, or
    [AttributeError] (what was decoded or passed in is not a mapping). *)
Theorem format_local_expertise_outcomes (x : value) :
  format_local_expertise x = Ret (VDict [])
  \/ (exists a c,
        format_local_expertise x
        = Ret (VDict [ (u "top_attractions", VList a);
                       (u "local_cuisine", VList c) ]))
  \/ format_local_expertise x = Raise AttributeError.
Proof. exact (format_local_expertise_cases x). Qed.

(** X6. [format_trip_schedule] returns a value for every input, and a
    mapping it has returned is returned again unchanged. *)
Theorem format_trip_schedule_stable (x : value) :
  exists v, format_trip_schedule x = Ret v
            /\ (is_dict v = true -> format_trip_schedule v = Ret v).
Proof.
  unfold format_trip_schedule at 1.
  destruct (is_dict x); eexists; (split; [reflexivity|]);
    intros Hv; unfold format_trip_schedule; rewrite Hv; reflexivity.
Qed.

Lemma format_trip_schedule_stable_witness :
  exists v, format_trip_schedule (VDict [ (u "days", VList []) ]) = Ret v
            /\ format_trip_schedule v = Ret v.
Proof.
  destruct (format_trip_schedule_stable (VDict [ (u "days", VList []) ]))
    as (v & H & G).
  exists v. split; [exact H|]. apply G.
  vm_compute in H. inversion H. reflexivity.
Defined.

(* ================================================================== *)
(** ** City selection: what the callers of [run] see *)

Lemma weather_is_no_city_key (k : pystr) :
  In k city_keys -> pystr_eqb k_weather k = false.
Proof.
  unfold city_keys. cbn [In].
  intros H; repeat (destruct H as [<- | H]; [reflexivity|]); destruct H.
Qed.

Lemma format_place_ignores_weather (d : list (pystr * value)) (x : value) :
  format_place (VDict (dict_set d k_weather x)) = format_place (VDict d).
Proof.
  rewrite !format_place_dict.
  apply f_equal, f_equal, map_ext_in. intros k Hk. apply f_equal.
  unfold field_or_default.
  rewrite (dict_lookup_set_other d k_weather k x (weather_is_no_city_key k Hk)).
  reflexivity.
Qed.

Lemma format_place_after_weather (w : World) (p p' : value) :
  is_formatted p -> weather_slot w p p' -> format_place p' = Ret p.
Proof.
  intros Hp (d & city & -> & _ & _ & Hc).
  destruct Hc as [[_ ->] | [(_ & _ & ->) | (_ & t & ds & h & s & _ & ->)]].
  - apply format_place_formatted, Hp.
  - rewrite format_place_ignores_weather. apply format_place_formatted, Hp.
  - rewrite format_place_ignores_weather. apply format_place_formatted, Hp.
Qed.

Lemma format_places_after_weather (w : World) (places out : list value) :
  Forall is_formatted places -> Forall2 (weather_slot w) places out ->
  format_places out = Ret places.
Proof.
  intros Hf H2. induction H2 as [|p p' places out Hs _ IH]; [reflexivity|].
  inversion Hf as [|? ? Hp Hps]; subst.
  cbn [format_places]. rewrite (format_place_after_weather w p p' Hp Hs).
  rewrite (IH Hps). reflexivity.
Qed.

(** What [run] returns, by the gate. *)
Lemma run_result (w : World) (i : Inputs) (x v : value) :
  Tripcrew_run w i x = Ret v ->
  exists places out,
    format_city_suggestions x = Ret (VList places)
    /\ Forall is_formatted places
    /\ v = VList out
    /\ (out = places \/ Forall2 (weather_slot w) places out).
Proof.
  intros H. unfold Tripcrew_run in H.
  destruct (format_city_suggestions x) as [fp|e] eqn:Ef; [|discriminate].
  destruct (format_city_suggestions_result x fp Ef) as (places & -> & Hf).
  exists places. cbn [bind] in H.
  destruct (should_show_weather (today w) i).
  - cbn [py_iter bind] in H.
    destruct (attach_weather_all_formatted w places Hf) as (out & Ho & H2).
    rewrite Ho in H. cbn [bind] in H. inversion H; subst.
    exists out. auto.
  - inversion H; subst. exists places. auto.
Qed.

Lemma reformatting_drops_weather_aux (w : World) (i : Inputs) (x v : value) :
  Tripcrew_run w i x = Ret v ->
  format_city_suggestions v = format_city_suggestions x.
Proof.
  intros H.
  destruct (run_result w i x v H) as (places & out & Hx & Hf & -> & Ho).
  rewrite Hx. destruct Ho as [-> | H2].
  - unfold format_city_suggestions. cbn [is_list py_iter bind].
    rewrite (format_places_formatted_id places Hf). reflexivity.
  - unfold format_city_suggestions. cbn [is_list py_iter bind].
    rewrite (format_places_after_weather w places out Hf H2). reflexivity.
Qed.

(** X7. Formatting what [run] returned gives what formatting the raw task
    output gives: the weather entries [run] attached are dropped.  Both
    callers of [run] ([step0_preferences] and the [/generate] endpoint)
    format its result again. *)
Theorem reformatting_drops_weather (w : World) (i : Inputs) (x v : value) :
  Tripcrew_run w i x = Ret v ->
  format_city_suggestions v = format_city_suggestions x.
Proof. exact (reformatting_drops_weather_aux w i x v). Qed.

Lemma reformatting_drops_weather_witness :
  format_city_suggestions
    (VList [ VDict (dict_set (map (fun k => (k, field_or_default
                                               [ (u "place", VStr (u "Hampi")) ] k))
                                  city_keys)
                             k_weather (VDict [])) ])
  = format_city_suggestions (VStr (uq "[{'place': 'Hampi'}]")).
Proof.
  apply (reformatting_drops_weather failing_world
           (mkInputs None None (Some (u "2026-11-04")) (Some holiday_based))).
  vm_compute. reflexivity.
Defined.

(** X8. [run] fails exactly when [format_city_suggestions] fails on the
    raw task output, and with the same exception: the weather gate and the
    weather loop add no failure. *)
Theorem run_fails_with_formatter (w : World) (i : Inputs) (x : value) (e : exn) :
  Tripcrew_run w i x = Raise e <-> format_city_suggestions x = Raise e.
Proof.
  unfold Tripcrew_run.
  destruct (format_city_suggestions x) as [fp|e'] eqn:Ef; cbn [bind].
  - split; [|discriminate].
    destruct (format_city_suggestions_result x fp Ef) as (places & -> & Hf).
    destruct (should_show_weather (today w) i); [|discriminate].
    cbn [py_iter bind].
    destruct (attach_weather_all_formatted w places Hf) as (out & -> & _).
    discriminate.
  - reflexivity.
Qed.

Lemma run_fails_with_formatter_witness :
  Tripcrew_run failing_world (mkInputs None None None None)
    (VList [ VStr (u "Hampi") ])
  = Raise AttributeError.
Proof.
  apply (proj2 (run_fails_with_formatter failing_world
                  (mkInputs None None None None)
                  (VList [ VStr (u "Hampi") ]) AttributeError)).
  reflexivity.
Defined.

(** X9. The [places] of the [/generate] response are the formatted task
    output: as many as the raw entries, and none of them carries a weather
    slot, whatever the gate and the weather service did. *)
Theorem generate_trip_places (w : World) (preferences : Inputs)
  (r : crew_result) (resp : value) :
  generate_trip w preferences r = Ret resp ->
  exists raw places,
    resp = VDict [ (u "raw", VList raw); (u "places", VList places) ]
    /\ format_city_suggestions (first_raw_or_default r) = Ret (VList places)
    /\ List.length raw = List.length places
    /\ Forall (fun p => has_key p k_weather = false) places.
Proof.
  unfold generate_trip, run.
  destruct (Tripcrew_init preferences) as [planner|e]; [|discriminate].
  cbn [bind].
  destruct (Tripcrew_run w planner (first_raw_or_default r)) as [v|e] eqn:Er;
    [|discriminate].
  cbn [bind].
  rewrite (reformatting_drops_weather_aux w planner _ v Er).
  destruct (run_result w planner _ v Er) as (places & out & Hx & Hf & -> & Ho).
  rewrite Hx. cbn [bind]. intros H; inversion H; subst.
  exists out, places. split; [reflexivity|]. split; [reflexivity|]. split.
  - destruct Ho as [-> | H2]; [reflexivity|].
    symmetry. exact (Forall2_length H2).
  - eapply Forall_impl; [|exact Hf]. apply formatted_no_weather.
Qed.

Lemma generate_trip_places_witness :
  exists raw places,
    generate_trip failing_world
      (mkInputs None None (Some (u "2026-11-04")) (Some holiday_based))
      (TasksOutput [ uq "[{'place': 'Hampi'}]" ])
    = Ret (VDict [ (u "raw", VList raw); (u "places", VList places) ])
    /\ List.length raw = List.length places.
Proof.
  destruct (generate_trip failing_world
              (mkInputs None None (Some (u "2026-11-04")) (Some holiday_based))
              (TasksOutput [ uq "[{'place': 'Hampi'}]" ]))
    as [resp|e] eqn:E; [|vm_compute in E; discriminate].
  destruct (generate_trip_places _ _ _ resp E)
    as (raw & places & -> & _ & Hl & _).
  exists raw, places. split; [reflexivity | exact Hl].
Defined.

Lemma later_endpoint_outcomes (flow : crew_result -> result value)
  (formatter : value -> result value) (preferences planner : Inputs)
  (r : crew_result) :
  flow = first_raw -> formatter = loads_or_empty ->
  Tripcrew_init preferences = Ret planner ->
  (r = TasksOutput [] ->
   later_endpoint flow formatter preferences r = Raise IndexError)
  /\ (r <> TasksOutput [] ->
      exists raw formatted,
        later_endpoint flow formatter preferences r
        = Ret (VDict [ (u "raw", VStr raw); (u "formatted", formatted) ])).
Proof.
  intros -> -> Hi. unfold later_endpoint. rewrite Hi. cbn [bind]. split.
  - intros ->. reflexivity.
  - intros Hr. destruct r as [|[|raw raws]]; [| congruence |];
      cbn [first_raw bind no_output]; unfold loads_or_empty; cbn [bind];
      do 2 eexists; reflexivity.
Qed.

(** X10. Once the constructor has returned, each of the six later
    endpoints (safety, packing, budget, transport, accommodation, reviews)
    fails in one case only: the crew's task list is there but empty, and
    the unguarded [tasks_output[0]] raises [IndexError].  In every other
    case it answers with the raw text and the formatted value. *)
Theorem later_endpoints_fail_on_empty_only
  (ep : Inputs -> crew_result -> result value)
  (preferences planner : Inputs) (r : crew_result) :
  In ep later_endpoints -> Tripcrew_init preferences = Ret planner ->
  (r = TasksOutput [] -> ep preferences r = Raise IndexError)
  /\ (r <> TasksOutput [] ->
      exists raw formatted,
        ep preferences r
        = Ret (VDict [ (u "raw", VStr raw); (u "formatted", formatted) ])).
Proof.
  unfold later_endpoints. cbn [In].
  intros H Hi.
  repeat (destruct H as [<- | H];
          [exact (later_endpoint_outcomes _ _ preferences planner r
                    eq_refl eq_refl Hi)|]).
  destruct H.
Qed.

Lemma later_endpoints_fail_on_empty_only_witness :
  safety_info (mkInputs None None None None) (TasksOutput []) = Raise IndexError.
Proof.
  apply (proj1 (later_endpoints_fail_on_empty_only safety_info
                  (mkInputs None None None None) (mkInputs None None None None)
                  (TasksOutput []) (or_introl eq_refl) eq_refl)).
  reflexivity.
Defined.



(* ================================================================== *)
(** ** The constructor run again, and on other totals *)

Lemma split_budget_is_split (total : Z) (r : ranges) :
  split_budget total = Ret r -> is_split r.
Proof.
  unfold split_budget.
  repeat match goal with
         | |- context [int_of_product ?c total] =>
             destruct (int_of_product c total); [|discriminate]
         end.
  cbn [bind]. intros H; inversion H. unfold is_split. eauto 10.
Qed.

Lemma split_is_usable (r : ranges) :
  is_split r -> ranges_unusable (Some r) = false.
Proof.
  intros (t_lo & t_hi & a_lo & a_hi & f_lo & f_hi & e_lo & e_hi & ->).
  reflexivity.
Qed.

(** What the constructor returns, by its guard. *)
Lemma Tripcrew_init_result (i i' : Inputs) :
  Tripcrew_init i = Ret i' ->
  i' = i
  \/ (ranges_unusable (budget_range i) = true
      /\ exists r, is_split r /\ i' = with_budget_range i (Some r)).
Proof.
  unfold Tripcrew_init.
  destruct (ranges_unusable (budget_range i)) eqn:Eu; cbn [andb];
    [|intros H; inversion H; auto].
  destruct (total_given (total_budget i)); [|intros H; inversion H; auto].
  destruct (total_budget i) as [total|]; [|intros H; inversion H; auto].
  destruct (split_budget total) as [r|e] eqn:Es; [|discriminate].
  cbn [bind]. intros H; inversion H; subst. right.
  split; [reflexivity|]. exists r. split; [|reflexivity].
  exact (split_budget_is_split total r Es).
Qed.

(** X12. Constructing [Tripcrew] again on the preferences a first
    construction left behind changes nothing: the ranges the first one
    derived are taken as supplied by the second.  ([main.py] builds a
    [Tripcrew] on the stored preferences at every stage.) *)
Theorem Tripcrew_init_idempotent (i : Inputs) :
  (i' <- Tripcrew_init i ;; Tripcrew_init i') = Tripcrew_init i.
Proof.
  destruct (Tripcrew_init i) as [i'|e] eqn:E; [|reflexivity].
  cbn [bind].
  destruct (Tripcrew_init_result i i' E) as [-> | (_ & r & Hr & ->)];
    [exact E|].
  unfold Tripcrew_init. cbn [budget_range with_budget_range].
  rewrite (split_is_usable r Hr). reflexivity.
Qed.

(** X13. The constructor changes nothing but [budget_range]: the total,
    the start date and the planning style are kept, so the weather gate
    answers as before; and [budget_range] is either kept or, when there
    were no usable ranges, replaced by the four categories in the order
    transport, accommodation, food, entertainment, each with a pair. *)
Theorem Tripcrew_init_frame (i i' : Inputs) :
  Tripcrew_init i = Ret i' ->
  total_budget i' = total_budget i
  /\ start_date i' = start_date i
  /\ planning_style i' = planning_style i
  /\ (forall today, should_show_weather today i' = should_show_weather today i)
  /\ (budget_range i' = budget_range i
      \/ (ranges_unusable (budget_range i) = true
          /\ exists r, budget_range i' = Some r /\ is_split r)).
Proof.
  intros H.
  destruct (Tripcrew_init_result i i' H) as [-> | (Hu & r & Hr & ->)].
  - repeat split; auto.
  - repeat split; auto. right. split; [exact Hu|]. exists r. auto.
Qed.

Lemma Tripcrew_init_frame_witness :
  exists i',
    Tripcrew_init (mkInputs (Some 60000) None (Some (u "2026-11-05"))
                            (Some holiday_based)) = Ret i'
    /\ total_budget i' = Some 60000
    /\ (forall today,
          should_show_weather today i'
          = should_show_weather today
              (mkInputs (Some 60000) None (Some (u "2026-11-05"))
                        (Some holiday_based))).
Proof.
  destruct (Tripcrew_init (mkInputs (Some 60000) None (Some (u "2026-11-05"))
                                    (Some holiday_based)))
    as [i'|e] eqn:E; [|vm_compute in E; discriminate].
  exists i'. split; [reflexivity|].
  destruct (Tripcrew_init_frame _ i' E) as (Ht & _ & _ & Hw & _).
  split; [exact Ht | exact Hw].
Defined.

(** The sign of what is rounded goes through rounding unchanged. *)
Lemma binary_round_aux_sign (s : bool) (m e : Z) (l : location) :
  binary_round_aux 53 1024 (negb s) m e l
  = SFopp (binary_round_aux 53 1024 s m e l).
Proof.
  unfold binary_round_aux.
  destruct (shr_fexp 53 1024 m e l) as [mrs e1].
  destruct (shr_fexp 53 1024 _ e1 loc_Exact) as [mrs2 e2].
  destruct (shr_m mrs2); [reflexivity | | reflexivity].
  destruct (e2 <=? 1024 - 53); reflexivity.
Qed.

Lemma float_of_int_opp (t : Z) :
  t <> 0 -> float_of_int (- t) = (f <- float_of_int t ;; Ret (SFopp f)).
Proof.
  unfold float_of_int, binary_normalize, binary_round.
  destruct t as [|p|p]; cbn [Z.opp]; [congruence | |]; intros _.
  - destruct (shl_align p 0 _) as [mz ez].
    change true with (negb false).
    rewrite binary_round_aux_sign.
    destruct (binary_round_aux 53 1024 false (Zpos mz) ez loc_Exact);
      reflexivity.
  - destruct (shl_align p 0 _) as [mz ez].
    change true with (negb false).
    rewrite binary_round_aux_sign.
    destruct (binary_round_aux 53 1024 false (Zpos mz) ez loc_Exact)
      as [[|]|[|]| |[|] m e]; reflexivity.
Qed.

Lemma SFmul_opp_r (c f : spec_float) :
  SFmul 53 1024 c (SFopp f) = SFopp (SFmul 53 1024 c f).
Proof.
  destruct c as [sc|sc| |sc mc ec], f as [sf|sf| |sf mf ef];
    cbn [SFmul SFopp]; try reflexivity;
    try (destruct sc, sf; reflexivity).
  replace (xorb sc (negb sf)) with (negb (xorb sc sf))
    by (destruct sc, sf; reflexivity).
  apply binary_round_aux_sign.
Qed.

Lemma int_of_float_opp (f : spec_float) :
  int_of_float (SFopp f) = (z <- int_of_float f ;; Ret (- z)).
Proof.
  destruct f as [s|s| |s m e]; cbn [SFopp int_of_float bind]; try reflexivity.
  destruct s; cbn [negb cond_Zopp]; f_equal; lia.
Qed.

(** [int(c * -t)] is [- int(c * t)]: truncation is toward zero. *)
Lemma int_of_product_opp (c : spec_float) (t : Z) :
  int_of_product c (- t) = (z <- int_of_product c t ;; Ret (- z)).
Proof.
  destruct (Z.eq_dec t 0) as [-> | Hne].
  - destruct c as [[|]|[|]| |[|] mc ec]; reflexivity.
  - unfold int_of_product. rewrite (float_of_int_opp t Hne).
    destruct (float_of_int t) as [f|e]; [|reflexivity].
    cbn [bind]. rewrite SFmul_opp_r. apply int_of_float_opp.
Qed.

Lemma split_budget_opp (t : Z) :
  split_budget (- t) = (r <- split_budget t ;; Ret (negate_ranges r)).
Proof.
  unfold split_budget. rewrite !int_of_product_opp.
  repeat match goal with
         | |- context [int_of_product ?c t] =>
             destruct (int_of_product c t); [|reflexivity]
         end.
  reflexivity.
Qed.

(** X14. A negative total is split like its absolute value with every
    bound negated: for [0 < t < 2^48] and no usable ranges the total [-t]
    gives transport [[-floor(0.25 t), -m]], accommodation
    [[-m, -floor(0.45 t)]], food [[-floor(0.15 t), -floor(0.25 t)]],
    entertainment [[-floor(0.05 t), -floor(0.15 t)]] with [m] the floor of
    [0.35 t] or one less, so every range has min >= max and every value is
    <= 0. *)
Theorem negative_total_inverts_ranges (t : Z) (existing : option ranges) :
  ranges_unusable existing = true -> 0 < t < 2 ^ 48 ->
  exists m,
    derive_budget (Some (- t)) existing
    = Ret (Some (negate_ranges (code_split t m)))
    /\ 35 * t / 100 - 1 <= m <= 35 * t / 100
    /\ - m <= - (25 * t / 100) <= 0
    /\ - (45 * t / 100) <= - m <= 0
    /\ - (25 * t / 100) <= - (15 * t / 100) <= 0
    /\ - (15 * t / 100) <= - (5 * t / 100) <= 0.
Proof.
  intros Hu Ht.
  assert (Hm : exists m, int_of_product lit_0_35 t = Ret m
                         /\ 35 * t / 100 - 1 <= m <= 35 * t / 100
                         /\ 25 * t / 100 <= m).
  { destruct (Z.lt_ge_cases t 10) as [Hs | Hl].
    - apply small_totals. lia.
    - destruct (int_0_35 t Ht) as (m & Hm & Hb).
      exists m. split; [exact Hm|]. split; [exact Hb|].
      pose proof (Z.div_mod (35 * t) 100 ltac:(lia)).
      pose proof (Z.mod_pos_bound (35 * t) 100 ltac:(lia)).
      pose proof (Z.div_mod (25 * t) 100 ltac:(lia)).
      pose proof (Z.mod_pos_bound (25 * t) 100 ltac:(lia)). lia. }
  destruct Hm as (m & Hm & Hb & Hlo).
  exists m. split.
  - unfold derive_budget, Tripcrew_init.
    cbn [budget_range total_budget total_given]. rewrite Hu.
    replace (- t =? 0) with false by (symmetry; apply Z.eqb_neq; lia).
    cbn [negb andb]. rewrite split_budget_opp. unfold split_budget.
    rewrite (int_quarter t Ht), Hm, (int_0_45 t Ht),
      (int_0_15 t Ht), (int_0_05 t Ht).
    reflexivity.
  - split; [exact Hb|].
    pose proof (Z.div_mod (5 * t) 100 ltac:(lia)).
    pose proof (Z.mod_pos_bound (5 * t) 100 ltac:(lia)).
    pose proof (Z.div_mod (15 * t) 100 ltac:(lia)).
    pose proof (Z.mod_pos_bound (15 * t) 100 ltac:(lia)).
    pose proof (Z.div_mod (25 * t) 100 ltac:(lia)).
    pose proof (Z.mod_pos_bound (25 * t) 100 ltac:(lia)).
    pose proof (Z.div_mod (35 * t) 100 ltac:(lia)).
    pose proof (Z.mod_pos_bound (35 * t) 100 ltac:(lia)).
    pose proof (Z.div_mod (45 * t) 100 ltac:(lia)).
    pose proof (Z.mod_pos_bound (45 * t) 100 ltac:(lia)).
    lia.
Qed.

Lemma negative_total_inverts_ranges_witness :
  exists m,
    derive_budget (Some (- 180)) None
    = Ret (Some (negate_ranges (code_split 180 m)))
    /\ - m <= - (25 * 180 / 100) <= 0.
Proof.
  destruct (negative_total_inverts_ranges 180 None eq_refl
              (conj eq_refl eq_refl))
    as (m & E & _ & H & _).
  exists m. split; [exact E | exact H].
Defined.

(** A mantissa whose rounding lands above the largest exponent overflows. *)
Lemma binary_round_aux_overflow (mx : positive) (ex n : Z) :
  Zpos (digits2_pos mx) = 53 + n -> 0 < n -> 971 < ex + n ->
  binary_round_aux 53 1024 false (Zpos mx) ex loc_Exact = S754_infinity false.
Proof.
  intros Hd Hn Hhi.
  destruct n as [|pn|pn]; try lia.
  unfold binary_round_aux, shr_fexp. cbn [Zdigits2 shr_record_of_loc].
  rewrite Hd. unfold fexp, emin.
  replace (Z.max (53 + Zpos pn + ex - 53) (3 - 1024 - 53) - ex)
    with (Zpos pn) by lia.
  destruct (shr_rne (Zpos mx) ex pn) as (mrs & -> & ->); [lia|].
  pose proof (digits_bounds mx) as Db. rewrite Hd in Db.
  assert (Hp : 0 < 2 ^ Zpos pn) by (apply Z.pow_pos_nonneg; lia).
  assert (Hq : 2 ^ 52 <= Zpos mx / 2 ^ Zpos pn < 2 ^ 53).
  { replace (53 + Zpos pn - 1) with (52 + Zpos pn) in Db by lia.
    rewrite !Z.pow_add_r in Db by lia. split.
    - apply Z.div_le_lower_bound; lia.
    - apply Z.div_lt_upper_bound; lia. }
  assert (Hr : 2 ^ 52 <= rne (Zpos mx) (Zpos pn) <= 2 ^ 53)
    by (destruct (rne_cases (Zpos mx) (Zpos pn)) as [[-> _] | [-> _]]; lia).
  destruct (rne (Zpos mx) (Zpos pn)) as [|q|q] eqn:Eq; try lia.
  destruct (Z.eq_dec (Zpos q) (2 ^ 53)) as [Ec | Ec].
  - inversion Ec as [Ec']. subst q.
    cbn [Zdigits2 digits2_pos Pos.succ].
    replace (Z.max (54 + (ex + Zpos pn) - 53) (3 - 1024 - 53) - (ex + Zpos pn))
      with 1 by lia.
    cbn [shr iter_pos shr_1 shr_m].
    replace (ex + Zpos pn + 1 <=? 1024 - 53) with false
      by (symmetry; apply Z.leb_gt; lia).
    reflexivity.
  - cbn [Zdigits2]. rewrite (digits_unique q 53) by (cbn; cbn in Ec; lia).
    replace (Z.max (53 + (ex + Zpos pn) - 53) (3 - 1024 - 53) - (ex + Zpos pn))
      with 0 by lia.
    cbn [shr shr_m].
    replace (ex + Zpos pn <=? 1024 - 53) with false
      by (symmetry; apply Z.leb_gt; lia).
    reflexivity.
Qed.

Lemma float_of_int_overflow (t : Z) :
  2 ^ 1024 <= t -> float_of_int t = Raise OverflowError.
Proof.
  intros Ht.
  assert (0 < 2 ^ 1024) by (apply Z.pow_pos_nonneg; lia).
  destruct t as [|p|p]; try lia.
  unfold float_of_int, binary_normalize, binary_round, fexp, emin.
  pose proof (digits_bounds p) as Db.
  set (D := Zpos (digits2_pos p)) in *.
  assert (HD : 1025 <= D).
  { destruct (Z.leb_spec 1025 D); auto.
    assert (2 ^ D <= 2 ^ 1024) by (apply Z.pow_le_mono_r; lia). lia. }
  replace (Z.max (D + 0 - 53) (3 - 1024 - 53)) with (D - 53) by lia.
  unfold shl_align.
  destruct (D - 53 - 0) as [|d|d] eqn:Ed; try lia.
  rewrite (binary_round_aux_overflow p 0 (D - 53)); [reflexivity | | |];
    fold D; lia.
Qed.

(** X15. A total of [2^1024] or more, or of [-2^1024] or less, cannot be
    converted to a double: with no usable ranges the constructor raises
    [OverflowError] and derives nothing. *)
Theorem huge_total_overflows (total : Z) (existing : option ranges) :
  ranges_unusable existing = true -> 2 ^ 1024 <= Z.abs total ->
  derive_budget (Some total) existing = Raise OverflowError.
Proof.
  intros Hu Ht.
  assert (Hp : 0 < 2 ^ 1024) by (apply Z.pow_pos_nonneg; lia).
  assert (Hs : forall t, 2 ^ 1024 <= t -> split_budget t = Raise OverflowError).
  { intros t H1. unfold split_budget, int_of_product.
    rewrite (float_of_int_overflow t H1). reflexivity. }
  unfold derive_budget, Tripcrew_init.
  cbn [budget_range total_budget total_given]. rewrite Hu.
  replace (total =? 0) with false by (symmetry; apply Z.eqb_neq; lia).
  cbn [negb andb].
  destruct (Z.le_ge_cases 0 total) as [Hpos | Hneg].
  - rewrite (Hs total) by lia. reflexivity.
  - replace total with (- (- total)) by lia.
    rewrite split_budget_opp, (Hs (- total)) by lia. reflexivity.
Qed.

Lemma huge_total_overflows_witness :
  derive_budget (Some (2 ^ 1024)) None = Raise OverflowError.
Proof.
  apply huge_total_overflows; [reflexivity|].
  vm_compute. discriminate.
Defined.

(* ================================================================== *)
(** ** Session state *)

Lemma set_default_lookup (s : session) (kv : pystr * value) (k : pystr) :
  dict_lookup (set_default s kv) k
  = match dict_lookup s k with
    | Some v => Some v
    | None => if pystr_eqb (fst kv) k then Some (snd kv) else None
    end.
Proof.
  unfold set_default. destruct (dict_lookup s (fst kv)) as [v0|] eqn:E0.
  - destruct (dict_lookup s k) as [v|] eqn:E; [reflexivity|].
    destruct (pystr_eqb (fst kv) k) eqn:Ek; [|reflexivity].
    apply pystr_eqb_eq in Ek. congruence.
  - destruct (pystr_eqb (fst kv) k) eqn:Ek.
    + apply pystr_eqb_eq in Ek. subst k.
      rewrite dict_lookup_set_same, E0. reflexivity.
    + rewrite (dict_lookup_set_other s (fst kv) k (snd kv) Ek).
      destruct (dict_lookup s k); reflexivity.
Qed.

Lemma fold_set_default_lookup (ds s : session) (k : pystr) :
  dict_lookup (fold_left set_default ds s) k
  = match dict_lookup s k with
    | Some v => Some v
    | None => dict_lookup ds k
    end.
Proof.
  revert s; induction ds as [|[k0 v0] ds IH]; intros s; cbn [fold_left].
  - destruct (dict_lookup s k); reflexivity.
  - rewrite IH, set_default_lookup. cbn [fst snd dict_lookup].
    destruct (dict_lookup s k); [reflexivity|].
    destruct (pystr_eqb k0 k); reflexivity.
Qed.

Lemma fold_set_default_present (ds s : session) :
  (forall k v, In (k, v) ds -> dict_lookup s k <> None) ->
  fold_left set_default ds s = s.
Proof.
  revert s; induction ds as [|[k0 v0] ds IH]; intros s H; cbn [fold_left];
    [reflexivity|].
  assert (E : set_default s (k0, v0) = s).
  { unfold set_default. cbn [fst].
    destruct (dict_lookup s k0) eqn:E0; [reflexivity|].
    exfalso. apply (H k0 v0); [left; reflexivity | exact E0]. }
  rewrite E. apply IH. intros k v Hin. apply (H k v). right. exact Hin.
Qed.

Lemma dict_lookup_in (d : list (pystr * value)) (k : pystr) (v : value) :
  In (k, v) d -> dict_lookup d k <> None.
Proof.
  induction d as [|[k' v'] d IH]; [intros []|].
  cbn [In dict_lookup]. intros [E | Hin].
  - inversion E; subst. rewrite pystr_eqb_refl. discriminate.
  - destruct (pystr_eqb k' k); [discriminate | exact (IH Hin)].
Qed.

(** X16. [_init_state] never overwrites what the session holds, gives
    each of its sixteen keys that is missing its default and adds no other
    key, and running it again changes nothing: a rerun of the script keeps
    the wizard's state. *)
Theorem init_state_keeps_and_fills (s : session) :
  (forall k v, dict_lookup s k = Some v ->
               dict_lookup (_init_state s) k = Some v)
  /\ (forall k, dict_lookup s k = None ->
                dict_lookup (_init_state s) k = dict_lookup defaults k)
  /\ _init_state (_init_state s) = _init_state s.
Proof.
  unfold _init_state. split; [|split].
  - intros k v H. rewrite fold_set_default_lookup, H. reflexivity.
  - intros k H. rewrite fold_set_default_lookup, H. reflexivity.
  - apply fold_set_default_present. intros k v Hin.
    rewrite fold_set_default_lookup.
    destruct (dict_lookup s k); [discriminate|].
    exact (dict_lookup_in defaults k v Hin).
Qed.

Lemma init_state_keeps_and_fills_witness :
  dict_lookup (_init_state [ (u "step", VInt 4) ]) (u "step") = Some (VInt 4)
  /\ dict_lookup (_init_state [ (u "step", VInt 4) ]) (u "suggestions")
     = Some (VList []).
Proof.
  destruct (init_state_keeps_and_fills [ (u "step", VInt 4) ]) as (K & F & _).
  split.
  - apply K. reflexivity.
  - rewrite F; reflexivity.
Defined.

Lemma delete_all_keys (s : session) :
  fold_left dict_del (dict_keys s) s = [].
Proof.
  induction s as [|[k v] s IH]; [reflexivity|].
  cbn [dict_keys map fst fold_left dict_del].
  rewrite pystr_eqb_refl. exact IH.
Qed.

(** X17. Reset (and "Finish & Start Over") leaves exactly the sixteen
    defaults, in their order, whatever the session held: every artifact,
    selection and widget key is gone and the stage is 0. *)
Theorem reset_restores_defaults (s : session) :
  reset s = defaults /\ dict_lookup (reset s) (u "step") = Some (VInt 0).
Proof.
  unfold reset. rewrite delete_all_keys. split; reflexivity.
Qed.

(* ================================================================== *)
(** ** The spans the extractors find *)

Lemma search_suffix (at_head : pystr -> option pystr) (s g : pystr) :
  search at_head s = Some g ->
  exists pre s', s = pre ++ s' /\ at_head s' = Some g.
Proof.
  induction s as [|c s IH]; cbn [search].
  - destruct (at_head []) eqn:E; [|discriminate].
    intros H; inversion H; subst. exists [], []. auto.
  - destruct (at_head (c :: s)) eqn:E.
    + intros H; inversion H; subst. exists [], (c :: s). auto.
    + intros H. destruct (IH H) as (pre & s' & -> & Hs').
      exists (c :: pre), s'. auto.
Qed.

Lemma search_complete (at_head : pystr -> option pystr) (pre s' g : pystr) :
  at_head s' = Some g -> search at_head (pre ++ s') <> None.
Proof.
  intros H. induction pre as [|c pre IH]; cbn [app].
  - destruct s'; cbn [search]; rewrite H; discriminate.
  - cbn [search]. destruct (at_head (c :: pre ++ s')); [discriminate|].
    exact IH.
Qed.

Lemma lazy_span_spec (close : N) (s g : pystr) :
  lazy_span close s = Some g ->
  exists body rest, g = body ++ [close] /\ s = g ++ rest.
Proof.
  revert g; induction s as [|c s IH]; intros g; cbn [lazy_span];
    [discriminate|].
  destruct ((c =? close)%N && fence_follows s) eqn:E.
  - intros H; inversion H; subst. apply andb_true_iff in E.
    destruct E as [E _]. apply N.eqb_eq in E. subst c.
    exists [], s. auto.
  - destruct (lazy_span close s) as [g'|]; [|discriminate].
    intros H; inversion H; subst.
    destruct (IH g' eq_refl) as (body & rest & -> & ->).
    exists (c :: body), rest. auto.
Qed.

Lemma greedy_span_spec (close : N) (s g : pystr) :
  greedy_span close s = Some g ->
  exists body rest, g = body ++ [close] /\ s = g ++ rest.
Proof.
  revert g; induction s as [|c s IH]; intros g; cbn [greedy_span];
    [discriminate|].
  destruct (greedy_span close s) as [g'|].
  - intros H; inversion H; subst.
    destruct (IH g' eq_refl) as (body & rest & -> & ->).
    exists (c :: body), rest. auto.
  - destruct (c =? close)%N eqn:E; [|discriminate].
    apply N.eqb_eq in E. subst c.
    intros H; inversion H; subst. exists [], s. auto.
Qed.



Lemma skip_spaces_suffix (s : pystr) : exists sp, s = sp ++ skip_spaces s.
Proof.
  induction s as [|c s (sp & IH)]; [exists []; reflexivity|].
  cbn [skip_spaces]. destruct (is_space c).
  - exists (c :: sp). cbn [app]. rewrite <- IH. reflexivity.
  - exists []. reflexivity.
Qed.

Lemma backticks_spec (s r : pystr) :
  backticks s = Some r -> s = [96; 96; 96]%N ++ r.
Proof.
  unfold backticks.
  repeat match goal with
         | |- context [match ?x with _ => _ end] =>
             destruct x; try discriminate
         end.
  intros H; inversion H; reflexivity.
Qed.

Lemma json_tag_spec (ic : bool) (s r : pystr) :
  json_tag ic s = Some r -> exists tag, s = tag ++ r.
Proof.
  unfold json_tag. destruct s as [|a [|b [|c [|d r']]]]; try discriminate.
  destruct ic.
  - destruct (_ && _ && _ && _); [|discriminate].
    intros H; inversion H; subst. exists [a; b; c; d]. reflexivity.
  - destruct (_ && _ && _ && _)%N; [|discriminate].
    intros H; inversion H; subst. exists [a; b; c; d]. reflexivity.
Qed.

Ltac list_assoc :=
  repeat (rewrite <- app_assoc || rewrite <- app_comm_cons); reflexivity.

Lemma fenced_at_spec (ic : bool) (s g : pystr) :
  fenced_at ic s = Some g ->
  is_span g /\ exists pre post, s = pre ++ g ++ post.
Proof.
  unfold fenced_at.
  destruct (backticks s) as [r|] eqn:Eb; [|discriminate].
  apply backticks_spec in Eb.
  destruct (json_tag ic r) as [r'|] eqn:Et; [|discriminate].
  apply json_tag_spec in Et. destruct Et as (tag & Et).
  destruct (skip_spaces_suffix r') as (sp & Es).
  destruct (skip_spaces r') as [|c body] eqn:Ek; [discriminate|].
  apply (bracket_cases c _ _ _ _
           (fun o => o = Some g ->
                     is_span g /\ exists pre post, s = pre ++ g ++ post)).
  - intros ->. destruct (lazy_span c_rbrace body) as [span|] eqn:El;
      [|discriminate].
    intros H; inversion H; subst g.
    destruct (lazy_span_spec _ _ _ El) as (b & rest & -> & ->).
    split; [exists b; left; reflexivity|].
    exists ([96; 96; 96]%N ++ tag ++ sp), rest.
    rewrite Eb, Et, Es. list_assoc.
  - intros ->. destruct (lazy_span c_rbrack body) as [span|] eqn:El;
      [|discriminate].
    intros H; inversion H; subst g.
    destruct (lazy_span_spec _ _ _ El) as (b & rest & -> & ->).
    split; [exists b; right; reflexivity|].
    exists ([96; 96; 96]%N ++ tag ++ sp), rest.
    rewrite Eb, Et, Es. list_assoc.
  - discriminate.
Qed.

Lemma bare_at_spec (s g : pystr) :
  bare_at s = Some g -> is_span g /\ exists post, s = g ++ post.
Proof.
  unfold bare_at. destruct s as [|c body]; [discriminate|].
  apply (bracket_cases c _ _ _ _
           (fun o => o = Some g -> is_span g /\ exists post, c :: body = g ++ post)).
  - intros ->. destruct (greedy_span c_rbrace body) as [span|] eqn:El;
      [|discriminate].
    intros H; inversion H; subst g.
    destruct (greedy_span_spec _ _ _ El) as (b & rest & -> & ->).
    split; [exists b; left; reflexivity|]. exists rest. reflexivity.
  - intros ->. destruct (greedy_span c_rbrack body) as [span|] eqn:El;
      [|discriminate].
    intros H; inversion H; subst g.
    destruct (greedy_span_spec _ _ _ El) as (b & rest & -> & ->).
    split; [exists b; right; reflexivity|]. exists rest. reflexivity.
  - discriminate.
Qed.

Lemma search_fenced_spec (ic : bool) (s g : pystr) :
  search_fenced ic s = Some g ->
  is_span g /\ exists pre post, s = pre ++ g ++ post.
Proof.
  intros H. destruct (search_suffix _ _ _ H) as (pre & s' & -> & Hs').
  destruct (fenced_at_spec ic s' g Hs') as (Hg & pre' & post & ->).
  split; [exact Hg|]. exists (pre ++ pre'), post. list_assoc.
Qed.

Lemma search_bare_spec (s g : pystr) :
  search_bare s = Some g ->
  is_span g /\ exists pre post, s = pre ++ g ++ post.
Proof.
  intros H. destruct (search_suffix _ _ _ H) as (pre & s' & -> & Hs').
  destruct (bare_at_spec s' g Hs') as (Hg & post & ->).
  split; [exact Hg|]. exists pre, post. reflexivity.
Qed.

(** X18. What [_extract_json_in_backticks] returns for a text is a piece
    of that text, taken as it stands, that opens with a brace and closes
    with a brace or opens with a bracket and closes with a bracket. *)
Theorem extract_returns_a_span (s g : pystr) :
  _extract_json_in_backticks (VStr s) = VStr g ->
  is_span g /\ exists pre post, s = pre ++ g ++ post.
Proof.
  cbn [_extract_json_in_backticks].
  destruct (search_fenced true s) as [g1|] eqn:E1.
  - intros H; inversion H; subst. exact (search_fenced_spec true s g E1).
  - destruct (search_bare s) as [g2|] eqn:E2; [|discriminate].
    intros H; inversion H; subst. exact (search_bare_spec s g E2).
Qed.

Lemma extract_returns_a_span_witness :
  is_span (uq "{'a': 1}")
  /\ exists pre post,
       uq "Plan: ```json {'a': 1}``` done" = pre ++ uq "{'a': 1}" ++ post.
Proof.
  exact (extract_returns_a_span (uq "Plan: ```json {'a': 1}``` done")
           (uq "{'a': 1}") eq_refl).
Defined.

Lemma is_span_has_pair (g pre post : pystr) :
  is_span g ->
  has_pair c_lbrace c_rbrace (pre ++ g ++ post)
  \/ has_pair c_lbrack c_rbrack (pre ++ g ++ post).
Proof.
  intros (body & [-> | ->]); [left | right];
    exists pre, body, post; list_assoc.
Qed.

Lemma bare_at_pair (open close : N) (b c : pystr) :
  (open = c_lbrace /\ close = c_rbrace) \/ (open = c_lbrack /\ close = c_rbrack) ->
  bare_at (open :: b ++ close :: c) <> None.
Proof.
  assert (G : forall cl, greedy_span cl (b ++ cl :: c) <> None).
  { intros cl. induction b as [|x b IH]; cbn [app greedy_span].
    - destruct (greedy_span cl c); [discriminate|].
      rewrite N.eqb_refl. discriminate.
    - destruct (greedy_span cl (b ++ cl :: c)); [discriminate|].
      exfalso. apply IH. reflexivity. }
  intros [[-> ->] | [-> ->]]; cbn [bare_at].
  - change (c_lbrace =? c_lbrace)%N with true. cbv iota.
    specialize (G c_rbrace).
    destruct (greedy_span c_rbrace (b ++ c_rbrace :: c)); [discriminate | exact G].
  - change (c_lbrack =? c_lbrace)%N with false.
    change (c_lbrack =? c_lbrack)%N with true. cbv iota.
    specialize (G c_rbrack).
    destruct (greedy_span c_rbrack (b ++ c_rbrack :: c)); [discriminate | exact G].
Qed.

Lemma search_bare_none_iff (s : pystr) :
  search_bare s = None
  <-> ~ has_pair c_lbrace c_rbrace s /\ ~ has_pair c_lbrack c_rbrack s.
Proof.
  split.
  - intros H. split; intros (a & b & c & ->).
    + destruct (bare_at (c_lbrace :: b ++ c_rbrace :: c)) as [g|] eqn:E.
      * exact (search_complete bare_at a _ g E H).
      * apply (bare_at_pair c_lbrace c_rbrace b c); [left; auto | exact E].
    + destruct (bare_at (c_lbrack :: b ++ c_rbrack :: c)) as [g|] eqn:E.
      * exact (search_complete bare_at a _ g E H).
      * apply (bare_at_pair c_lbrack c_rbrack b c); [right; auto | exact E].
  - intros [H1 H2]. destruct (search_bare s) as [g|] eqn:E; [|reflexivity].
    exfalso. destruct (search_bare_spec s g E) as (Hg & pre & post & ->).
    destruct (is_span_has_pair g pre post Hg); tauto.
Qed.

Lemma search_fenced_none (ic : bool) (s : pystr) :
  ~ has_pair c_lbrace c_rbrace s -> ~ has_pair c_lbrack c_rbrack s ->
  search_fenced ic s = None.
Proof.
  intros H1 H2. destruct (search_fenced ic s) as [g|] eqn:E; [|reflexivity].
  exfalso. destruct (search_fenced_spec ic s g E) as (Hg & pre & post & ->).
  destruct (is_span_has_pair g pre post Hg); tauto.
Qed.

(** X19. [_extract_json_in_backticks] gives [None] for a text exactly
    when the text has no opening brace with a closing brace after it and no
    opening bracket with a closing bracket after it; on such a text
    [_parse_json_blocks] gives [None] as well. *)
Theorem extract_none_iff_no_pair (s : pystr) :
  (_extract_json_in_backticks (VStr s) = VNone
   <-> ~ has_pair c_lbrace c_rbrace s /\ ~ has_pair c_lbrack c_rbrack s)
  /\ (~ has_pair c_lbrace c_rbrace s -> ~ has_pair c_lbrack c_rbrack s ->
      _parse_json_blocks (VStr s) = Ret VNone).
Proof.
  split; [split|].
  - cbn [_extract_json_in_backticks]. intros H.
    apply search_bare_none_iff.
    destruct (search_fenced true s); [discriminate|].
    destruct (search_bare s); [discriminate | reflexivity].
  - intros [H1 H2]. cbn [_extract_json_in_backticks].
    rewrite (search_fenced_none true s H1 H2).
    rewrite (proj2 (search_bare_none_iff s) (conj H1 H2)). reflexivity.
  - intros H1 H2. rewrite parse_text_by_stages.
    unfold fenced_stage, bare_stage.
    rewrite (search_fenced_none false s H1 H2).
    rewrite (proj2 (search_bare_none_iff s) (conj H1 H2)). reflexivity.
Qed.

Lemma extract_none_iff_no_pair_witness :
  _parse_json_blocks (VStr (u "Hampi is lovely in winter.")) = Ret VNone.
Proof.
  destruct (extract_none_iff_no_pair (u "Hampi is lovely in winter."))
    as [[H _] G].
  destruct (H eq_refl) as [H1 H2]. exact (G H1 H2).
Defined.







(* ================================================================== *)
(** ** The stored suggestions *)

Lemma pystr_eqb_neq (a b : pystr) : a <> b -> pystr_eqb a b = false.
Proof.
  intros H. destruct (pystr_eqb a b) eqn:E; [|reflexivity].
  apply pystr_eqb_eq in E. contradiction.
Qed.

Lemma dict_set_same_value (d : list (pystr * value)) (k : pystr) (v : value) :
  dict_lookup d k = Some v -> dict_set d k v = d.
Proof.
  induction d as [|[k' v'] d IH]; cbn [dict_lookup dict_set]; [discriminate|].
  destruct (pystr_eqb k' k) eqn:E.
  - intros H; inversion H; subst. reflexivity.
  - intros H. rewrite (IH H). reflexivity.
Qed.

Lemma weather_slot_with_slot (w : World) (p p' : value) :
  weather_slot w p p' -> with_slot p p'.
Proof.
  intros (d & city & -> & _ & _ & Hc).
  destruct Hc as [[_ ->] | [(_ & _ & ->) | (_ & t & ds & h & s & _ & ->)]].
  - left. reflexivity.
  - right. eauto.
  - right. eauto.
Qed.

Lemma run_entries (w : World) (i : Inputs) (x v : value) :
  Tripcrew_run w i x = Ret v ->
  exists places out,
    format_city_suggestions x = Ret (VList places)
    /\ Forall is_formatted places
    /\ v = VList out
    /\ Forall2 with_slot places out.
Proof.
  intros H.
  destruct (run_result w i x v H) as (places & out & Hx & Hf & -> & Ho).
  exists places, out. split; [exact Hx|]. split; [exact Hf|].
  split; [reflexivity|].
  destruct Ho as [-> | H2].
  - clear. induction places; constructor; [left; reflexivity | assumption].
  - clear Hx Hf H. induction H2; constructor;
      [eapply weather_slot_with_slot; eassumption | assumption].
Qed.

Section EnrichmentFacts.

Variable py_str : value -> pystr.

(** The record of a formatted entry, and its fields in an entry with a
    slot. *)
Lemma with_slot_lookup (d : list (pystr * value)) (p' : value) (k : pystr) :
  with_slot (VDict (map (fun k => (k, field_or_default d k)) city_keys)) p' ->
  In k city_keys ->
  exists d', p' = VDict d' /\ dict_lookup d' k = Some (field_or_default d k).
Proof.
  intros [-> | (d0 & x & E & ->)] Hk.
  - eexists. split; [reflexivity|]. exact (formatted_lookup d k Hk).
  - inversion E; subst d0. eexists. split; [reflexivity|].
    rewrite (dict_lookup_set_other _ k_weather k x (weather_is_no_city_key k Hk)).
    exact (formatted_lookup d k Hk).
Qed.

Lemma place_name_formatted (d : list (pystr * value)) (n : pystr) :
  place_name (VDict (map (fun k => (k, field_or_default d k)) city_keys)) = Some n ->
  field_or_default d (u "place") = VStr n /\ n <> [].
Proof.
  unfold place_name.
  replace (dict_lookup (map (fun k => (k, field_or_default d k)) city_keys) (u "place"))
    with (Some (field_or_default d (u "place"))) by reflexivity.
  destruct (field_or_default d (u "place")) as [| | | |[|c s]| |]; try discriminate.
  intros H; inversion H; subst. split; [reflexivity | discriminate].
Qed.

Lemma place_key_with_slot (d : list (pystr * value)) (p' : value) (n : pystr) :
  place_name (VDict (map (fun k => (k, field_or_default d k)) city_keys)) = Some n ->
  with_slot (VDict (map (fun k => (k, field_or_default d k)) city_keys)) p' ->
  is_dict p' = true /\ place_key p' = Ret (VStr n).
Proof.
  intros Hn Hs. destruct (place_name_formatted d n Hn) as [Hp Hne].
  destruct (with_slot_lookup d p' (u "place") Hs) as (d' & -> & Hl);
    [left; reflexivity|].
  split; [reflexivity|].
  unfold place_key. cbn [py_get bind]. rewrite Hl, Hp.
  destruct n; [contradiction | reflexivity].
Qed.

Hypothesis py_str_text : forall s, py_str (VStr s) = s.

(** The table [by_place] after [run]: every candidate finds its own
    entry when the names are distinct. *)
Lemma by_place_of_names (places out : list value) :
  Forall2 with_slot places out ->
  Forall is_formatted places ->
  forall names acc,
    map place_name places = map Some names -> NoDup names ->
    exists by_place,
      by_place_of py_str out acc = Ret by_place
      /\ (forall n, ~ In n names -> dict_lookup by_place n = dict_lookup acc n)
      /\ (forall p, In p places ->
            exists n p', place_name p = Some n
                         /\ dict_lookup by_place n = Some p'
                         /\ with_slot p p').
Proof.
  induction 1 as [|p p' places out Hs _ IH]; intros Hf names acc Hn Hd.
  - exists acc. split; [reflexivity|]. split; [reflexivity|]. intros p [].
  - destruct names as [|n names]; [discriminate|].
    cbn [map] in Hn. injection Hn as Hn1 Hn2.
    inversion Hf as [|? ? Hp Hps]; subst.
    inversion Hd as [|? ? Hnot Hd']; subst.
    destruct Hp as (d & ->).
    destruct (place_key_with_slot d p' n Hn1 Hs) as [Hdict Hkey].
    cbn [by_place_of]. rewrite Hdict, Hkey. cbn [bind]. rewrite py_str_text.
    destruct (IH Hps names (dict_set acc n p') Hn2 Hd')
      as (bp & Hbp & Hout & Hin).
    exists bp. split; [exact Hbp|]. split.
    + intros n0 Hn0. rewrite Hout by (intros F; apply Hn0; right; exact F).
      apply dict_lookup_set_other, pystr_eqb_neq.
      intros ->. apply Hn0. left. reflexivity.
    + intros p0 [<- | Hp0].
      * exists n, p'. split; [exact Hn1|]. split; [|exact Hs].
        rewrite (Hout n Hnot). apply dict_lookup_set_same.
      * exact (Hin p0 Hp0).
Qed.

(** With its own entry as reference, a candidate is combined into
    itself. *)
Lemma combined_own_entry (by_place : list (pystr * value))
  (d : list (pystr * value)) (n : pystr) (p' : value) :
  place_name (VDict (map (fun k => (k, field_or_default d k)) city_keys)) = Some n ->
  dict_lookup by_place n = Some p' ->
  with_slot (VDict (map (fun k => (k, field_or_default d k)) city_keys)) p' ->
  combined by_place (VDict (map (fun k => (k, field_or_default d k)) city_keys))
  = Ret (VDict (map (fun k => (k, field_or_default d k)) city_keys)).
Proof.
  intros Hn Hl Hs. destruct (place_name_formatted d n Hn) as [Hp _].
  assert (G : forall k, In k city_keys ->
                        py_get p' k VNone = Ret (field_or_default d k)).
  { intros k Hk. destruct (with_slot_lookup d p' k Hs Hk) as (d' & -> & E).
    cbn [py_get]. rewrite E. reflexivity. }
  unfold combined.
  replace (py_get (VDict (map (fun k => (k, field_or_default d k)) city_keys))
             (u "place") VNone)
    with (Ret (field_or_default d (u "place"))) by reflexivity.
  rewrite Hp. cbn [bind by_place_get]. rewrite Hl.
  rewrite !G by (unfold city_keys; cbn [In]; tauto).
  cbn [bind].
  replace (py_get (VDict (map (fun k => (k, field_or_default d k)) city_keys))
             (u "photos") VNone)
    with (Ret (field_or_default d (u "photos"))) by reflexivity.
  destruct (truthy (field_or_default d (u "photos"))); reflexivity.
Qed.

Lemma enrich_all_own_entries (by_place : list (pystr * value))
  (places : list value) :
  Forall is_formatted places ->
  (forall p, In p places ->
     exists n p', place_name p = Some n
                  /\ dict_lookup by_place n = Some p'
                  /\ with_slot p p') ->
  enrich_all by_place places = Ret places.
Proof.
  induction 1 as [|p places Hp _ IH]; intros H; [reflexivity|].
  cbn [enrich_all].
  destruct (H p (or_introl eq_refl)) as (n & p' & Hn & Hl & Hs).
  destruct Hp as (d & ->).
  rewrite (combined_own_entry by_place d n p' Hn Hl Hs). cbn [bind].
  rewrite IH by (intros q Hq; apply H; right; exact Hq). reflexivity.
Qed.

Lemma enrich_after_run (w : World) (i : Inputs) (x output : value)
  (places : list value) :
  Tripcrew_run w i x = Ret output ->
  format_city_suggestions x = Ret (VList places) ->
  distinct_names places ->
  enrich py_str output = Ret (VList places).
Proof.
  intros Hr Hx (names & Hn & Hd).
  destruct (run_entries w i x output Hr) as (places' & out & Hx' & Hf & -> & H2).
  rewrite Hx in Hx'. inversion Hx'; subst places'.
  assert (Hfo : format_city_suggestions (VList out) = Ret (VList places)).
  { rewrite <- Hx. exact (reformatting_drops_weather_aux w i x (VList out) Hr). }
  unfold enrich. rewrite Hfo. cbn [bind].
  assert (Hs : py_iter (py_or (VList places) (VList [])) = Ret places).
  { destruct places; reflexivity. }
  assert (Hi : py_iter (let parsed := py_or (VList out) (VList []) in
                        if is_dict parsed then VList [parsed] else parsed)
               = Ret out).
  { destruct out; reflexivity. }
  cbn [_parse_json_blocks bind]. cbv zeta in Hi |- *. rewrite Hi. cbn [bind].
  destruct (by_place_of_names places out H2 Hf names [] Hn Hd)
    as (bp & -> & _ & Hin).
  cbn [bind]. rewrite Hs. cbn [bind].
  rewrite (enrich_all_own_entries bp places Hf Hin). reflexivity.
Qed.

End EnrichmentFacts.

(** X21. When every candidate has a name (its [place] is a text that is
    not empty) and no two have the same, what "Get Suggestions" stores as
    [suggestions] is the formatted task output and nothing else: the
    enrichment changes no field, and the weather slots that [run] attached
    stay behind in [suggestions_raw]. *)
Theorem step0_stores_the_formatted_places
  (py_str : value -> pystr) (w : World) (prefs : Inputs) (r : crew_result)
  (raw stored : value) (places : list value) :
  (forall s, py_str (VStr s) = s) ->
  step0_suggestions py_str w prefs r = Ret (raw, stored) ->
  format_city_suggestions (first_raw_or_default r) = Ret (VList places) ->
  distinct_names places ->
  stored = VList places
  /\ Forall (fun p => has_key p k_weather = false) places.
Proof.
  intros Hstr H Hx Hd. unfold step0_suggestions, run in H.
  destruct (Tripcrew_init prefs) as [planner|e]; [|discriminate].
  cbn [bind] in H.
  destruct (Tripcrew_run w planner (first_raw_or_default r)) as [output|e] eqn:Er;
    [|discriminate].
  cbn [bind] in H.
  rewrite (enrich_after_run py_str Hstr w planner _ output places Er Hx Hd) in H.
  cbn [bind] in H. inversion H; subst. split; [reflexivity|].
  destruct (format_city_suggestions_result _ _ Hx) as (places' & E & Hf).
  inversion E; subst places'.
  eapply Forall_impl; [|exact Hf]. intros p Hp. exact (formatted_no_weather p Hp).
Qed.

Lemma step0_stores_the_formatted_places_witness :
  exists raw places,
    step0_suggestions str_of_text failing_world
      (mkInputs None None (Some (u "2026-11-04")) (Some holiday_based))
      (TasksOutput [ uq "[{'place': 'Hampi'}, {'place': 'Goa'}]" ])
    = Ret (raw, VList places)
    /\ List.length places = 2%nat
    /\ raw <> VList places.
Proof.
  destruct (step0_suggestions str_of_text failing_world
              (mkInputs None None (Some (u "2026-11-04")) (Some holiday_based))
              (TasksOutput [ uq "[{'place': 'Hampi'}, {'place': 'Goa'}]" ]))
    as [[raw stored]|e] eqn:E; [|vm_compute in E; discriminate].
  destruct (step0_stores_the_formatted_places str_of_text failing_world
              (mkInputs None None (Some (u "2026-11-04")) (Some holiday_based))
              (TasksOutput [ uq "[{'place': 'Hampi'}, {'place': 'Goa'}]" ])
              raw stored
              (map formatted_place
                 [ VDict [ (u "place", VStr (u "Hampi")) ];
                   VDict [ (u "place", VStr (u "Goa")) ] ])
              (fun s => eq_refl) E eq_refl) as [Hs _].
  - exists [ u "Hampi"; u "Goa" ]. split; [reflexivity|].
    constructor; [intros [H | []]; discriminate H|].
    constructor; [intros [] | constructor].
  - exists raw. eexists. subst stored. split; [reflexivity|].
    split; [reflexivity|].
    vm_compute in E. inversion E. discriminate.
Defined.

(* ================================================================== *)
(** ** The stored suggestions: failures and lost defaults *)

Lemma dict_set_valued (d : list (pystr * value)) (k : pystr) (v : value) :
  dict_valued d -> is_dict v = true -> dict_valued (dict_set d k v).
Proof.
  unfold dict_valued. intros Hd Hv.
  induction Hd as [|[k' v'] d Hh Ht IH]; cbn [dict_set].
  - constructor; [exact Hv | constructor].
  - destruct (pystr_eqb k' k); constructor; assumption.
Qed.

Lemma dict_valued_lookup (d : list (pystr * value)) (k : pystr) (v : value) :
  dict_valued d -> dict_lookup d k = Some v -> is_dict v = true.
Proof.
  unfold dict_valued.
  induction 1 as [|[k' v'] d Hh _ IH]; cbn [dict_lookup]; [discriminate|].
  destruct (pystr_eqb k' k); [|exact IH].
  intros H; inversion H; subst. exact Hh.
Qed.

Lemma place_key_returns (d : list (pystr * value)) :
  exists key, place_key (VDict d) = Ret key.
Proof.
  unfold place_key. cbn [py_get bind].
  destruct (truthy _); [eexists; reflexivity|].
  destruct (truthy _); eexists; reflexivity.
Qed.

Section EnrichmentOutcomes.

Variable py_str : value -> pystr.

Lemma by_place_of_valued (items : list value) :
  forall acc, dict_valued acc ->
  exists by_place, by_place_of py_str items acc = Ret by_place
                   /\ dict_valued by_place.
Proof.
  induction items as [|item items IH]; intros acc Ha.
  - exists acc. split; [reflexivity | exact Ha].
  - cbn [by_place_of]. destruct (is_dict item) eqn:Ei; [|exact (IH acc Ha)].
    destruct item; try discriminate.
    destruct (place_key_returns d) as (key & ->). cbn [bind].
    apply IH, dict_set_valued; [exact Ha | reflexivity].
Qed.

(** One formatted entry: a place that cannot be hashed raises
    [TypeError]; any other place gives an entry. *)
Lemma combined_formatted (by_place : list (pystr * value)) (p : value) :
  dict_valued by_place -> is_formatted p ->
  (unhashable_place p = true /\ combined by_place p = Raise TypeError)
  \/ (unhashable_place p = false
      /\ exists c, combined by_place p = Ret c /\ entry_kept p c).
Proof.
  intros Hb (d & ->).
  set (rec := map (fun k => (k, field_or_default d k)) city_keys).
  assert (Hl : dict_lookup rec (u "place") = Some (field_or_default d (u "place")))
    by reflexivity.
  assert (Hg : py_get (VDict rec) (u "place") VNone
               = Ret (field_or_default d (u "place"))) by reflexivity.
  assert (Href : forall ref : list (pystr * value),
    exists c,
      (ws <- py_get (VDict ref) (u "weather_suitability") VNone ;;
       tc <- py_get (VDict ref) (u "travel_cost_estimate") VNone ;;
       ar <- py_get (VDict ref) (u "accommodation_range") VNone ;;
       sr <- py_get (VDict ref) (u "safety_rating") VNone ;;
       ac <- py_get (VDict ref) (u "accessibility") VNone ;;
       pr <- py_get (VDict ref) (u "permit_required") VNone ;;
       ref_photos <- py_get (VDict ref) (u "photos") VNone ;;
       photos <- (if truthy ref_photos then Ret ref_photos
                  else py_get (VDict rec) (u "photos") VNone) ;;
       Ret (VDict (dict_update rec
                     [ (u "weather_suitability", ws);
                       (u "travel_cost_estimate", tc);
                       (u "accommodation_range", ar);
                       (u "safety_rating", sr);
                       (u "accessibility", ac);
                       (u "permit_required", pr);
                       (u "photos", photos) ]))) = Ret c
      /\ exists dc, c = VDict dc
                    /\ dict_keys dc = city_keys
                    /\ dict_lookup dc (u "place") = dict_lookup rec (u "place")
                    /\ dict_lookup dc (u "reason") = dict_lookup rec (u "reason")
                    /\ (ref = [] -> forall k, In k comparison_keys ->
                                              dict_lookup dc k = Some VNone)).
  { intros ref. cbn [py_get bind].
    destruct (truthy _); cbn [bind];
      (eexists; split; [reflexivity|]; eexists; split; [reflexivity|];
       split; [reflexivity|]; split; [reflexivity|]; split; [reflexivity|];
       intros -> k Hk; unfold comparison_keys in Hk; cbn [In] in Hk;
       repeat (destruct Hk as [<- | Hk]; [reflexivity|]); destruct Hk). }
  unfold combined, unhashable_place, entry_kept, scalar_place.
  rewrite Hg, Hl. cbn [bind].
  destruct (field_or_default d (u "place")) as [| b | z | f | n | l | dd] eqn:Ep;
    cbn [by_place_get bind].
  - right. split; [reflexivity|]. destruct (Href []) as (c & Hc & dc & G).
    exists c. split; [exact Hc|]. exists rec, dc.
    destruct G as (G1 & G2 & G3 & G4 & G5).
    repeat (split; [assumption || reflexivity|]). intros _. exact (G5 eq_refl).
  - right. split; [reflexivity|]. destruct (Href []) as (c & Hc & dc & G).
    exists c. split; [exact Hc|]. exists rec, dc.
    destruct G as (G1 & G2 & G3 & G4 & G5).
    repeat (split; [assumption || reflexivity|]). intros _. exact (G5 eq_refl).
  - right. split; [reflexivity|]. destruct (Href []) as (c & Hc & dc & G).
    exists c. split; [exact Hc|]. exists rec, dc.
    destruct G as (G1 & G2 & G3 & G4 & G5).
    repeat (split; [assumption || reflexivity|]). intros _. exact (G5 eq_refl).
  - right. split; [reflexivity|]. destruct (Href []) as (c & Hc & dc & G).
    exists c. split; [exact Hc|]. exists rec, dc.
    destruct G as (G1 & G2 & G3 & G4 & G5).
    repeat (split; [assumption || reflexivity|]). intros _. exact (G5 eq_refl).
  - right. split; [reflexivity|].
    assert (Hr : exists ref,
               match dict_lookup by_place n with
               | Some r => r
               | None => VDict []
               end = VDict ref).
    { destruct (dict_lookup by_place n) as [r|] eqn:En; [|exists []; reflexivity].
      assert (Hd := dict_valued_lookup by_place n r Hb En).
      destruct r; try discriminate. eexists. reflexivity. }
    destruct Hr as (ref & ->).
    destruct (Href ref) as (c & Hc & dc & G).
    exists c. split; [exact Hc|]. exists rec, dc.
    destruct G as (G1 & G2 & G3 & G4 & G5).
    repeat (split; [assumption || reflexivity|]). discriminate.
  - left. split; reflexivity.
  - left. split; reflexivity.
Qed.

Lemma enrich_all_cases (by_place : list (pystr * value)) (places : list value) :
  dict_valued by_place -> Forall is_formatted places ->
  (existsb unhashable_place places = true
   /\ enrich_all by_place places = Raise TypeError)
  \/ (existsb unhashable_place places = false
      /\ exists cs, enrich_all by_place places = Ret cs
                    /\ Forall2 entry_kept places cs).
Proof.
  intros Hb. induction 1 as [|p places Hp _ IH].
  - right. split; [reflexivity|]. exists []. split; [reflexivity | constructor].
  - cbn [existsb enrich_all].
    destruct (combined_formatted by_place p Hb Hp)
      as [(-> & ->) | (-> & c & -> & Hc)]; cbn [orb bind].
    + left. split; reflexivity.
    + destruct IH as [(-> & ->) | (-> & cs & -> & Hcs)]; cbn [bind].
      * left. split; reflexivity.
      * right. split; [reflexivity|]. exists (c :: cs).
        split; [reflexivity | constructor; assumption].
Qed.

Lemma enrich_cases (output : value) :
  (exists e, format_city_suggestions output = Raise e
             /\ enrich py_str output = Raise e)
  \/ (exists places,
        format_city_suggestions output = Ret (VList places)
        /\ ((existsb unhashable_place places = true
             /\ enrich py_str output = Raise TypeError)
            \/ (existsb unhashable_place places = false
                /\ exists cs, enrich py_str output = Ret (VList cs)
                              /\ Forall2 entry_kept places cs))).
Proof.
  unfold enrich.
  destruct (format_city_suggestions output) as [fs|e] eqn:Ef;
    [|left; exists e; split; reflexivity].
  right. destruct (format_city_suggestions_result output fs Ef)
    as (places & -> & Hf).
  exists places. split; [reflexivity|]. cbn [bind].
  destruct (parse_result output) as (v & -> & Hv). cbn [bind].
  assert (Hi : exists items,
             py_iter (let parsed := py_or v (VList []) in
                      if is_dict parsed then VList [parsed] else parsed)
             = Ret items).
  { destruct Hv as [-> | Hv]; [exists []; reflexivity|].
    destruct v as [| | | | | [|x l] | [|kv d]]; try discriminate;
      eexists; reflexivity. }
  destruct Hi as (items & Hi). cbv zeta in Hi |- *. rewrite Hi. cbn [bind].
  destruct (by_place_of_valued items [] (Forall_nil _)) as (bp & -> & Hbp).
  cbn [bind].
  assert (Hs : py_iter (py_or (VList places) (VList [])) = Ret places)
    by (destruct places; reflexivity).
  rewrite Hs. cbn [bind].
  destruct (enrich_all_cases bp places Hbp Hf)
    as [(-> & ->) | (-> & cs & -> & Hcs)]; cbn [bind].
  - left. split; reflexivity.
  - right. split; [reflexivity|]. exists cs. split; [reflexivity | exact Hcs].
Qed.

End EnrichmentOutcomes.

(** X22. The enrichment of "Get Suggestions" fails in two cases only: the
    formatter fails on the output (same exception), or it returns and some
    candidate's [place] is a list or a mapping, which [by_place.get] cannot
    hash ([TypeError]). *)
Theorem enrich_fails_iff (py_str : value -> pystr) (output : value) (e : exn) :
  enrich py_str output = Raise e
  <-> format_city_suggestions output = Raise e
      \/ (e = TypeError
          /\ exists places,
               format_city_suggestions output = Ret (VList places)
               /\ existsb unhashable_place places = true).
Proof.
  destruct (enrich_cases py_str output)
    as [(e' & Hf & He) | (places & Hf & [(Hu & He) | (Hu & cs & He & _)])];
    rewrite He, Hf.
  - split; [intros H; left; exact H|].
    intros [H | (_ & places & H & _)]; [exact H | discriminate].
  - split.
    + intros H; inversion H; subst. right. split; [reflexivity|].
      exists places. split; [reflexivity | exact Hu].
    + intros [H | (-> & _)]; [discriminate | reflexivity].
  - split; [discriminate|].
    intros [H | (_ & places' & H & Hu')]; [discriminate|].
    inversion H; subst. rewrite Hu in Hu'. discriminate.
Qed.

Lemma enrich_fails_iff_witness :
  enrich str_of_text
    (VList [ VDict [ (u "place", VList [ VStr (u "Hampi") ]) ] ])
  = Raise TypeError.
Proof.
  apply (proj2 (enrich_fails_iff str_of_text
                  (VList [ VDict [ (u "place", VList [ VStr (u "Hampi") ]) ] ])
                  TypeError)).
  right. split; [reflexivity|]. eexists. split; reflexivity.
Defined.

(** X23. When the enrichment returns, the stored list has one entry for
    each formatted candidate, in order, with the nine keys, the place and
    the reason of the candidate; and a candidate whose [place] is [None], a
    truth value or a number has [None] in its six comparison fields: the
    formatter's defaults are overwritten. *)
Theorem enrich_keeps_entries (py_str : value -> pystr) (output stored : value) :
  enrich py_str output = Ret stored ->
  exists places cs,
    format_city_suggestions output = Ret (VList places)
    /\ stored = VList cs
    /\ Forall2 entry_kept places cs.
Proof.
  intros H.
  destruct (enrich_cases py_str output)
    as [(e' & _ & He) | (places & Hf & [(_ & He) | (_ & cs & He & Hcs)])];
    rewrite He in H; try discriminate.
  inversion H; subst. exists places, cs. auto.
Qed.

Lemma enrich_keeps_entries_witness :
  exists c,
    enrich str_of_text (VStr (uq "[{'place': null, 'reason': 'quiet'}]"))
    = Ret (VList [ VDict c ])
    /\ dict_lookup c (u "safety_rating") = Some VNone
    /\ dict_lookup c (u "reason") = Some (VStr (u "quiet")).
Proof.
  destruct (enrich str_of_text (VStr (uq "[{'place': null, 'reason': 'quiet'}]")))
    as [stored|e] eqn:E; [|vm_compute in E; discriminate].
  destruct (enrich_keeps_entries str_of_text _ stored E)
    as (places & cs & Hf & -> & H2).
  vm_compute in Hf. inversion Hf; subst places. clear Hf.
  inversion H2 as [|p c ps cs' Hk Hrest]; subst.
  inversion Hrest; subst.
  destruct Hk as (dp & dc & Ep & -> & _ & _ & Hr & Hn).
  inversion Ep; subst dp.
  exists dc. split; [reflexivity|]. split.
  - apply Hn; [reflexivity|]. unfold comparison_keys. cbn [In]. tauto.
  - rewrite Hr. reflexivity.
Defined.

(* ================================================================== *)
(** ** The final payload *)

Lemma read_session_present (s : session) (ks : list pystr) :
  (forall k, In k ks -> dict_lookup s k <> None) ->
  exists fields,
    read_session s ks = Ret fields
    /\ dict_keys fields = ks
    /\ (forall k, In k ks -> dict_lookup fields k = dict_lookup s k).
Proof.
  induction ks as [|k ks IH]; intros H.
  - exists []. split; [reflexivity|]. split; [reflexivity|]. intros k [].
  - destruct IH as (fields & Hr & Hk & Hl);
      [intros k' Hk'; apply H; right; exact Hk'|].
    cbn [read_session]. unfold session_attr.
    destruct (dict_lookup s k) as [v|] eqn:E;
      [|exfalso; exact (H k (or_introl eq_refl) E)].
    cbn [bind]. rewrite Hr. cbn [bind].
    exists ((k, v) :: fields). split; [reflexivity|]. split.
    + unfold dict_keys in *. cbn [map fst]. rewrite Hk. reflexivity.
    + intros k' Hk'. cbn [dict_lookup].
      destruct (pystr_eqb k k') eqn:Ek.
      * apply pystr_eqb_eq in Ek. subst k'. symmetry. exact E.
      * destruct Hk' as [-> | Hk']; [rewrite pystr_eqb_refl in Ek; discriminate|].
        exact (Hl k' Hk').
Qed.

Lemma exported_have_defaults (k : pystr) :
  In k exported_keys -> dict_lookup defaults k <> None.
Proof.
  unfold exported_keys. cbn [In].
  intros H; repeat (destruct H as [<- | H]; [discriminate|]); destruct H.
Qed.

(** X24. [main] runs [_init_state] first, so the last page never misses a
    key: whatever the session holds, the final payload is built, its
    ["tripPlan"] has the thirteen exported keys in their order, each with
    the value the session stored or else its default, and the session
    afterwards holds the payload as [final_export]. *)
Theorem final_payload_is_built (s : session) :
  exists fields s',
    main_final s = Ret s'
    /\ dict_lookup s' (u "final_export")
       = Some (VDict [ (u "tripPlan", VDict fields) ])
    /\ dict_keys fields = exported_keys
    /\ (forall k, In k exported_keys ->
          dict_lookup fields k
          = match dict_lookup s k with
            | Some v => Some v
            | None => dict_lookup defaults k
            end).
Proof.
  destruct (read_session_present (_init_state s) exported_keys)
    as (fields & Hr & Hk & Hl).
  { intros k Hk. unfold _init_state. rewrite fold_set_default_lookup.
    destruct (dict_lookup s k); [discriminate|].
    exact (exported_have_defaults k Hk). }
  exists fields. eexists.
  unfold main_final, step10_final, final_payload. rewrite Hr. cbn [bind].
  split; [reflexivity|]. split; [apply dict_lookup_set_same|].
  split; [exact Hk|].
  intros k Hin. rewrite (Hl k Hin). unfold _init_state.
  apply fold_set_default_lookup.
Qed.
